(** * HorseRacing: the race simulation core, embedded and verified

    Shallow embedding of the simulation classes of the repository
    (public/track.js, public/horse.js, public/ai.js, public/raceLoop.js,
    public/playerControls.js) and proofs of the properties that the
    specification states about them.

    Numbers.  A JavaScript number is modelled by an exact real ([R]), or,
    wherever a value flows out of a division, a remainder or a square
    root, by [JS.num]: a real or one of the three non-finite values.
    Rounding and the sign of zero are not modelled.

    Objects.  Every class is a record in a module of the class's name and
    every method is a function from the object before the call to the
    object after it.  The [Track] that all horses share by reference is
    passed to the horse methods that read it.  [Math.random] is an
    explicit stream of draws.  Fields that only the drawing code reads
    (colours of the track, textures, the camera scroll offsets) are left
    out of the records of the classes; the scroll offsets have a record
    of their own, [TrackCamera]. *)

From Stdlib Require Import Reals Lra Lia List ZArith String Bool.
From Stdlib Require Import Permutation Sorted DecimalString.
Import ListNotations.
Open Scope R_scope.

(* ================================================================== *)
(** * JavaScript numbers *)
(* ================================================================== *)

Module JS.

Inductive num : Type :=
| Fin (r : R)
| PosInf
| NegInf
| NaN.

Definition is_finite (a : num) : Prop :=
  match a with Fin _ => True | _ => False end.

Definition neg (a : num) : num :=
  match a with
  | Fin r => Fin (- r)
  | PosInf => NegInf
  | NegInf => PosInf
  | NaN => NaN
  end.

(** The infinity of the sign of [r]; zero counts as positive. *)
Definition inf_like (r : R) : num :=
  if Rle_dec 0 r then PosInf else NegInf.

Definition add (a b : num) : num :=
  match a, b with
  | NaN, _ => NaN
  | _, NaN => NaN
  | Fin x, Fin y => Fin (x + y)
  | Fin _, PosInf => PosInf
  | Fin _, NegInf => NegInf
  | PosInf, NegInf => NaN
  | PosInf, _ => PosInf
  | NegInf, PosInf => NaN
  | NegInf, _ => NegInf
  end.

Definition sub (a b : num) : num := add a (neg b).

Definition mul (a b : num) : num :=
  match a, b with
  | NaN, _ => NaN
  | _, NaN => NaN
  | Fin x, Fin y => Fin (x * y)
  | Fin x, PosInf => if Req_dec_T x 0 then NaN else inf_like x
  | Fin x, NegInf => if Req_dec_T x 0 then NaN else neg (inf_like x)
  | PosInf, Fin y => if Req_dec_T y 0 then NaN else inf_like y
  | NegInf, Fin y => if Req_dec_T y 0 then NaN else neg (inf_like y)
  | PosInf, PosInf => PosInf
  | PosInf, NegInf => NegInf
  | NegInf, PosInf => NegInf
  | NegInf, NegInf => PosInf
  end.

(** [x / 0] is an infinity of the sign of [x], and [0 / 0] is NaN. *)
Definition div (a b : num) : num :=
  match a, b with
  | NaN, _ => NaN
  | _, NaN => NaN
  | Fin x, Fin y =>
      if Req_dec_T y 0
      then (if Req_dec_T x 0 then NaN else inf_like x)
      else Fin (x / y)
  | Fin _, _ => Fin 0
  | PosInf, Fin y => inf_like y
  | NegInf, Fin y => neg (inf_like y)
  | _, _ => NaN
  end.

(** Integer part of [x], rounded towards zero. *)
Definition trunc (x : R) : Z :=
  if Rle_dec 0 x then Int_part x else (- Int_part (- x))%Z.

(** The remainder operator [%]: the result has the sign of the dividend;
    a zero divisor or an infinite dividend gives NaN. *)
Definition rem (a b : num) : num :=
  match a, b with
  | NaN, _ => NaN
  | _, NaN => NaN
  | Fin x, Fin y =>
      if Req_dec_T y 0 then NaN else Fin (x - y * IZR (trunc (x / y)))
  | Fin x, _ => Fin x
  | _, _ => NaN
  end.

Definition sqrt (a : num) : num :=
  match a with
  | Fin x => if Rlt_dec x 0 then NaN else Fin (R_sqrt.sqrt x)
  | PosInf => PosInf
  | _ => NaN
  end.

Definition cos (a : num) : num :=
  match a with Fin x => Fin (Rtrigo_def.cos x) | _ => NaN end.

Definition sin (a : num) : num :=
  match a with Fin x => Fin (Rtrigo_def.sin x) | _ => NaN end.

(** Comparisons: every comparison with NaN is false. *)
Definition ltb (a b : num) : bool :=
  match a, b with
  | NaN, _ => false
  | _, NaN => false
  | Fin x, Fin y => if Rlt_dec x y then true else false
  | Fin _, PosInf => true
  | NegInf, Fin _ => true
  | NegInf, PosInf => true
  | _, _ => false
  end.

Definition leb (a b : num) : bool :=
  match a, b with
  | NaN, _ => false
  | _, NaN => false
  | Fin x, Fin y => if Rle_dec x y then true else false
  | _, PosInf => true
  | NegInf, _ => true
  | _, _ => false
  end.

Definition gtb (a b : num) : bool := ltb b a.
Definition geb (a b : num) : bool := leb b a.

(** [Math.abs]. *)
Definition abs (a : num) : num :=
  match a with
  | Fin r => Fin (Rabs r)
  | NaN => NaN
  | _ => PosInf
  end.

End JS.

Declare Scope js_scope.
Delimit Scope js_scope with js.
Bind Scope js_scope with JS.num.
Coercion JS.Fin : R >-> JS.num.
Notation "a + b" := (JS.add a b) : js_scope.
Notation "a - b" := (JS.sub a b) : js_scope.
Notation "a * b" := (JS.mul a b) : js_scope.
Notation "a / b" := (JS.div a b) : js_scope.
Notation "a 'mod' b" := (JS.rem a b) : js_scope.
Notation "a > b" := (JS.gtb a b) : js_scope.
Notation "a >= b" := (JS.geb a b) : js_scope.
Notation "a < b" := (JS.ltb a b) : js_scope.
Notation "a <= b" := (JS.leb a b) : js_scope.

(** Comparison of two finite numbers as a boolean, for the conditions of
    the source that mix comparisons with [&&] and [!]. *)
Definition Rltb (a b : R) : bool := if Rlt_dec a b then true else false.
Definition Rgtb (a b : R) : bool := Rltb b a.

(* ================================================================== *)
(** * The drawing surface *)
(* ================================================================== *)

Module Canvas.
Record t : Type := make { width : R; height : R }.
End Canvas.

(* ================================================================== *)
(** * public/track.js *)
(* ================================================================== *)

Module Track.

Record t : Type := make {
  canvas : Canvas.t;
  centerX : R;
  centerY : R;
  outerRadiusX : R;
  outerRadiusY : R;
  trackWidth : R;
  innerRadiusX : R;
  innerRadiusY : R;
  totalLength : JS.num;
  laneCount : Z;
  laneSpacing : R
}.

Record Position : Type := mkPosition {
  x : JS.num;
  y : JS.num;
  angle : JS.num
}.

(** [calculateTrackLength()]: Ramanujan's approximation on the radii of
    the centre line. *)
Definition calculateTrackLength (this : t) : JS.num :=
  let a := outerRadiusX this - trackWidth this / 2 in
  let b := outerRadiusY this - trackWidth this / 2 in
  let h := (JS.Fin ((a - b) ^ 2) / JS.Fin ((a + b) ^ 2))%js in
  (JS.Fin (PI * (a + b))
   * (JS.Fin 1 + (JS.Fin 3 * h) / (JS.Fin 10 + JS.sqrt (JS.Fin 4 - JS.Fin 3 * h))))%js.

(** [setupTrack()]. *)
Definition setupTrack (this : t) : t :=
  let laneCount' := 6%Z in
  make (canvas this) (centerX this) (centerY this)
       (outerRadiusX this) (outerRadiusY this) (trackWidth this)
       (innerRadiusX this) (innerRadiusY this) (totalLength this)
       laneCount' (trackWidth this / IZR laneCount').

(** [new Track(canvas)].  [laneCount] and [laneSpacing] are undefined
    until [setupTrack] runs as the last statement; the intermediate
    object holds 0 for both and nothing reads them before. *)
Definition new (cv : Canvas.t) : t :=
  let centerX' := Canvas.width cv / 2 in
  let centerY' := Canvas.height cv / 2 in
  let outerRadiusX' := Canvas.width cv * 0.4 in
  let outerRadiusY' := Canvas.height cv * 0.35 in
  let trackWidth' := 120 in
  let innerRadiusX' := outerRadiusX' - trackWidth' in
  let innerRadiusY' := outerRadiusY' - trackWidth' in
  let this0 := make cv centerX' centerY' outerRadiusX' outerRadiusY'
                    trackWidth' innerRadiusX' innerRadiusY' JS.NaN 0%Z 0 in
  let this1 := make cv centerX' centerY' outerRadiusX' outerRadiusY'
                    trackWidth' innerRadiusX' innerRadiusY'
                    (calculateTrackLength this0) 0%Z 0 in
  setupTrack this1.

(** [handleResize(canvas)]: [totalLength] is not assigned. *)
Definition handleResize (this : t) (cv : Canvas.t) : t :=
  let centerX' := Canvas.width cv / 2 in
  let centerY' := Canvas.height cv / 2 in
  let outerRadiusX' := Canvas.width cv * 0.4 in
  let outerRadiusY' := Canvas.height cv * 0.35 in
  let innerRadiusX' := outerRadiusX' - trackWidth this in
  let innerRadiusY' := outerRadiusY' - trackWidth this in
  make cv centerX' centerY' outerRadiusX' outerRadiusY' (trackWidth this)
       innerRadiusX' innerRadiusY' (totalLength this)
       (laneCount this) (laneSpacing this).

(** [getTrackPosition(distance, laneNumber)]. *)
Definition getTrackPosition (this : t) (distance : R) (laneNumber : Z)
  : Position :=
  let normalizedDistance :=
    ((JS.Fin distance mod totalLength this) / totalLength this)%js in
  let angle' := (normalizedDistance * JS.Fin 2 * JS.Fin PI + JS.Fin (PI / 2))%js in
  let radiusX := innerRadiusX this + IZR laneNumber * laneSpacing this in
  let radiusY := innerRadiusY this + IZR laneNumber * laneSpacing this in
  mkPosition (JS.Fin (centerX this) + JS.Fin radiusX * JS.cos angle')%js
             (JS.Fin (centerY this) + JS.Fin radiusY * JS.sin angle')%js
             angle'.

(** [isAtFinishLine(x, y, threshold)]. *)
Definition isAtFinishLine (this : t) (x y threshold : JS.num) : bool :=
  let finishY := centerY this + outerRadiusY this * sin (PI / 2) in
  (JS.abs (y - JS.Fin finishY) < threshold)%js
  && (x > JS.Fin (centerX this - outerRadiusX this))%js
  && (x < JS.Fin (centerX this + outerRadiusX this))%js.

End Track.

(* ================================================================== *)
(** * public/track.js, the version with the flattened oval *)
(* ================================================================== *)

Module TrackPerspective.

Record t : Type := make {
  canvas : Canvas.t;
  centerX : R;
  centerY : R;
  outerRadiusX : R;
  outerRadiusY : R;
  trackWidth : R;
  innerRadiusX : R;
  innerRadiusY : R;
  perspectiveFlattening : R;
  totalLength : JS.num;
  laneCount : Z;
  laneSpacing : R
}.

Definition calculateTrackLength (this : t) : JS.num :=
  let a := outerRadiusX this - trackWidth this / 2 in
  let b := outerRadiusY this - trackWidth this / 2 in
  let h := (JS.Fin ((a - b) ^ 2) / JS.Fin ((a + b) ^ 2))%js in
  (JS.Fin (PI * (a + b))
   * (JS.Fin 1 + (JS.Fin 3 * h) / (JS.Fin 10 + JS.sqrt (JS.Fin 4 - JS.Fin 3 * h))))%js.

Definition setupTrack (this : t) : t :=
  let laneCount' := 6%Z in
  make (canvas this) (centerX this) (centerY this)
       (outerRadiusX this) (outerRadiusY this) (trackWidth this)
       (innerRadiusX this) (innerRadiusY this) (perspectiveFlattening this)
       (totalLength this) laneCount' (trackWidth this / IZR laneCount').

Definition new (cv : Canvas.t) : t :=
  let centerX' := Canvas.width cv / 2 in
  let centerY' := Canvas.height cv / 2 in
  let outerRadiusX' := Canvas.width cv * 0.45 in
  let outerRadiusY' := Canvas.height cv * 0.30 in
  let trackWidth' := 140 in
  let innerRadiusX' := outerRadiusX' - trackWidth' in
  let innerRadiusY' := outerRadiusY' - trackWidth' in
  let this0 := make cv centerX' centerY' outerRadiusX' outerRadiusY'
                    trackWidth' innerRadiusX' innerRadiusY' 0.85
                    JS.NaN 0%Z 0 in
  let this1 := make cv centerX' centerY' outerRadiusX' outerRadiusY'
                    trackWidth' innerRadiusX' innerRadiusY' 0.85
                    (calculateTrackLength this0) 0%Z 0 in
  setupTrack this1.

(** [handleResize(canvas)]: the last statement recalculates the track
    length from the radii just assigned. *)
Definition handleResize (this : t) (cv : Canvas.t) : t :=
  let centerX' := Canvas.width cv / 2 in
  let centerY' := Canvas.height cv / 2 in
  let outerRadiusX' := Canvas.width cv * 0.45 in
  let outerRadiusY' := Canvas.height cv * 0.30 in
  let innerRadiusX' := outerRadiusX' - trackWidth this in
  let innerRadiusY' := outerRadiusY' - trackWidth this in
  let this1 := make cv centerX' centerY' outerRadiusX' outerRadiusY'
                    (trackWidth this) innerRadiusX' innerRadiusY'
                    (perspectiveFlattening this) (totalLength this)
                    (laneCount this) (laneSpacing this) in
  make cv centerX' centerY' outerRadiusX' outerRadiusY'
       (trackWidth this) innerRadiusX' innerRadiusY'
       (perspectiveFlattening this) (calculateTrackLength this1)
       (laneCount this) (laneSpacing this).

Definition getTrackPosition (this : t) (distance : R) (laneNumber : Z)
  : Track.Position :=
  let normalizedDistance :=
    ((JS.Fin distance mod totalLength this) / totalLength this)%js in
  let angle' := (normalizedDistance * JS.Fin 2 * JS.Fin PI + JS.Fin (PI / 2))%js in
  let radiusX := innerRadiusX this + IZR laneNumber * laneSpacing this in
  let radiusY := innerRadiusY this + IZR laneNumber * laneSpacing this in
  let yRadius :=
    if (angle' > JS.Fin (PI / 2))%js && (angle' < JS.Fin (PI * 3 / 2))%js
    then
      let flattenFactor :=
        (JS.sin (angle' - JS.Fin (PI / 2))
         * JS.Fin (1 - perspectiveFlattening this))%js in
      (JS.Fin radiusY * (JS.Fin (perspectiveFlattening this) + flattenFactor))%js
    else JS.Fin radiusY in
  Track.mkPosition
    (JS.Fin (centerX this) + JS.Fin radiusX * JS.cos angle')%js
    (JS.Fin (centerY this) + yRadius * JS.sin angle')%js
    angle'.

End TrackPerspective.

(* ================================================================== *)
(** * public/playerControls.js *)
(* ================================================================== *)

Module InputHandler.

Record InputState : Type := mkInputState {
  forward : bool;
  boost : bool
}.

Record t : Type := make {
  inputState : InputState;
  keys_forward : list string;
  keys_boost : list string
}.

Definition includes (l : list string) (key : string) : bool :=
  existsb (String.eqb key) l.

Definition resetInputState (this : t) : t :=
  make (mkInputState false false) (keys_forward this) (keys_boost this).

Definition new : t :=
  resetInputState
    (make (mkInputState false false)
          ["ArrowUp"; "w"; "W"]%string ["Space"; " "]%string).

Definition handleKeyDown (key : string) (this : t) : t :=
  let s := inputState this in
  let s1 := if includes (keys_forward this) key
            then mkInputState true (boost s) else s in
  let s2 := if includes (keys_boost this) key
            then mkInputState (forward s1) true else s1 in
  make s2 (keys_forward this) (keys_boost this).

Definition handleKeyUp (key : string) (this : t) : t :=
  let s := inputState this in
  let s1 := if includes (keys_forward this) key
            then mkInputState false (boost s) else s in
  let s2 := if includes (keys_boost this) key
            then mkInputState (forward s1) false else s1 in
  make s2 (keys_forward this) (keys_boost this).

Definition handleBlur (this : t) : t := resetInputState this.

Definition getInputState (this : t) : InputState := inputState this.

End InputHandler.

(* ================================================================== *)
(** * public/horse.js *)
(* ================================================================== *)

Module PlayerHorse.

Import InputHandler.

Record t : Type := make {
  laneNumber : Z;
  distance : R;
  x : JS.num;
  y : JS.num;
  angle : JS.num;
  speed : R;
  maxSpeed : R;
  boostMaxSpeed : R;
  acceleration : R;
  deceleration : R;
  stamina : R;
  maxStamina : R;
  staminaDrainRate : R;
  staminaRecoveryRate : R;
  finished : bool;
  finishLineY : JS.num;
  width : R;
  height : R;
  color : string
}.

(** Assignments to one field. *)
Definition set_laneNumber (v : Z) (h : t) : t :=
  make v (distance h) (x h) (y h) (angle h) (speed h) (maxSpeed h)
       (boostMaxSpeed h) (acceleration h) (deceleration h) (stamina h)
       (maxStamina h) (staminaDrainRate h) (staminaRecoveryRate h)
       (finished h) (finishLineY h) (width h) (height h) (color h).
Definition set_distance (v : R) (h : t) : t :=
  make (laneNumber h) v (x h) (y h) (angle h) (speed h) (maxSpeed h)
       (boostMaxSpeed h) (acceleration h) (deceleration h) (stamina h)
       (maxStamina h) (staminaDrainRate h) (staminaRecoveryRate h)
       (finished h) (finishLineY h) (width h) (height h) (color h).
Definition set_position (p : Track.Position) (h : t) : t :=
  make (laneNumber h) (distance h) (Track.x p) (Track.y p) (Track.angle p)
       (speed h) (maxSpeed h)
       (boostMaxSpeed h) (acceleration h) (deceleration h) (stamina h)
       (maxStamina h) (staminaDrainRate h) (staminaRecoveryRate h)
       (finished h) (finishLineY h) (width h) (height h) (color h).
Definition set_xy (p : Track.Position) (h : t) : t :=
  make (laneNumber h) (distance h) (Track.x p) (Track.y p) (angle h)
       (speed h) (maxSpeed h)
       (boostMaxSpeed h) (acceleration h) (deceleration h) (stamina h)
       (maxStamina h) (staminaDrainRate h) (staminaRecoveryRate h)
       (finished h) (finishLineY h) (width h) (height h) (color h).
Definition set_speed (v : R) (h : t) : t :=
  make (laneNumber h) (distance h) (x h) (y h) (angle h) v (maxSpeed h)
       (boostMaxSpeed h) (acceleration h) (deceleration h) (stamina h)
       (maxStamina h) (staminaDrainRate h) (staminaRecoveryRate h)
       (finished h) (finishLineY h) (width h) (height h) (color h).
Definition set_maxSpeed (v : R) (h : t) : t :=
  make (laneNumber h) (distance h) (x h) (y h) (angle h) (speed h) v
       (boostMaxSpeed h) (acceleration h) (deceleration h) (stamina h)
       (maxStamina h) (staminaDrainRate h) (staminaRecoveryRate h)
       (finished h) (finishLineY h) (width h) (height h) (color h).
Definition set_boostMaxSpeed (v : R) (h : t) : t :=
  make (laneNumber h) (distance h) (x h) (y h) (angle h) (speed h)
       (maxSpeed h) v (acceleration h) (deceleration h) (stamina h)
       (maxStamina h) (staminaDrainRate h) (staminaRecoveryRate h)
       (finished h) (finishLineY h) (width h) (height h) (color h).
Definition set_acceleration (v : R) (h : t) : t :=
  make (laneNumber h) (distance h) (x h) (y h) (angle h) (speed h)
       (maxSpeed h) (boostMaxSpeed h) v (deceleration h) (stamina h)
       (maxStamina h) (staminaDrainRate h) (staminaRecoveryRate h)
       (finished h) (finishLineY h) (width h) (height h) (color h).
Definition set_stamina (v : R) (h : t) : t :=
  make (laneNumber h) (distance h) (x h) (y h) (angle h) (speed h)
       (maxSpeed h) (boostMaxSpeed h) (acceleration h) (deceleration h) v
       (maxStamina h) (staminaDrainRate h) (staminaRecoveryRate h)
       (finished h) (finishLineY h) (width h) (height h) (color h).
Definition set_finished (v : bool) (h : t) : t :=
  make (laneNumber h) (distance h) (x h) (y h) (angle h) (speed h)
       (maxSpeed h) (boostMaxSpeed h) (acceleration h) (deceleration h)
       (stamina h) (maxStamina h) (staminaDrainRate h)
       (staminaRecoveryRate h) v (finishLineY h) (width h) (height h)
       (color h).
Definition set_finishLineY (v : JS.num) (h : t) : t :=
  make (laneNumber h) (distance h) (x h) (y h) (angle h) (speed h)
       (maxSpeed h) (boostMaxSpeed h) (acceleration h) (deceleration h)
       (stamina h) (maxStamina h) (staminaDrainRate h)
       (staminaRecoveryRate h) (finished h) v (width h) (height h)
       (color h).
Definition set_color (v : string) (h : t) : t :=
  make (laneNumber h) (distance h) (x h) (y h) (angle h) (speed h)
       (maxSpeed h) (boostMaxSpeed h) (acceleration h) (deceleration h)
       (stamina h) (maxStamina h) (staminaDrainRate h)
       (staminaRecoveryRate h) (finished h) (finishLineY h) (width h)
       (height h) v.

(** [reset()]. *)
Definition reset (track : Track.t) (this : t) : t :=
  let this := set_distance 0 this in
  let this := set_speed 0 this in
  let this := set_stamina (maxStamina this) this in
  let this := set_finished false this in
  let startPosition := Track.getTrackPosition track 0 (laneNumber this) in
  let this := set_position startPosition this in
  let finishPosition := Track.getTrackPosition track 0 (laneNumber this) in
  set_finishLineY (Track.y finishPosition) this.

(** [new PlayerHorse(track, laneNumber)]. *)
Definition new (track : Track.t) (laneNumber : Z) : t :=
  reset track
    (make laneNumber 0 (JS.Fin 0) (JS.Fin 0) (JS.Fin 0)
          0 500 700 200 300
          100 100 25 10
          false (JS.Fin 0) 30 60 "#FF5733"%string).

(** [handleInput(deltaTime, inputState)]. *)
Definition handleInput (deltaTime : R) (inputState : InputState) (this : t)
  : t :=
  let this :=
    if forward inputState then
      let currentMaxSpeed :=
        if boost inputState && Rgtb (stamina this) 0
        then boostMaxSpeed this
        else maxSpeed this in
      let this := set_speed (speed this + acceleration this * deltaTime) this in
      let this :=
        if Rgtb (speed this) currentMaxSpeed
        then set_speed currentMaxSpeed this else this in
      if boost inputState && Rgtb (stamina this) 0 then
        let this :=
          set_stamina (stamina this - staminaDrainRate this * deltaTime) this in
        if Rltb (stamina this) 0 then set_stamina 0 this else this
      else this
    else
      let this := set_speed (speed this - deceleration this * deltaTime) this in
      let this := if Rltb (speed this) 0 then set_speed 0 this else this in
      if negb (boost inputState) then
        let this :=
          set_stamina (stamina this + staminaRecoveryRate this * deltaTime)
                      this in
        if Rgtb (stamina this) (maxStamina this)
        then set_stamina (maxStamina this) this else this
      else this in
  if negb (boost inputState) then
    let this :=
      set_stamina (stamina this + staminaRecoveryRate this * deltaTime) this in
    if Rgtb (stamina this) (maxStamina this)
    then set_stamina (maxStamina this) this else this
  else this.

(** [updatePosition(deltaTime)]. *)
Definition updatePosition (track : Track.t) (deltaTime : R) (this : t) : t :=
  let this := set_distance (distance this + speed this * deltaTime) this in
  let position :=
    Track.getTrackPosition track (distance this) (laneNumber this) in
  set_position position this.

(** [checkRaceCompletion()]. *)
Definition checkRaceCompletion (track : Track.t) (this : t) : t :=
  if (JS.Fin (distance this) >= Track.totalLength track)%js
  then set_finished true this
  else this.

(** [update(deltaTime, inputState)]. *)
Definition update (track : Track.t) (deltaTime : R) (inputState : InputState)
                  (this : t) : t :=
  if finished this then this
  else
    let this := handleInput deltaTime inputState this in
    let this := updatePosition track deltaTime this in
    checkRaceCompletion track this.

(** [get trackProgress()]. *)
Definition trackProgress (track : Track.t) (this : t) : JS.num :=
  (JS.Fin (distance this) / Track.totalLength track)%js.

Definition hasFinishedRace (this : t) : bool := finished this.

(** [setTrack(track)]: the caller's shared track becomes [track]. *)
Definition setTrack (track : Track.t) (this : t) : t := reset track this.

(** [changeLane(newLane)]. *)
Definition changeLane (track : Track.t) (newLane : Z) (this : t) : t :=
  let this := set_laneNumber newLane this in
  let position :=
    Track.getTrackPosition track (distance this) (laneNumber this) in
  set_xy position this.

End PlayerHorse.

(* ================================================================== *)
(** * public/track.js: the camera *)
(* ================================================================== *)

Module TrackCamera.

(** The fields [scrollX] and [scrollY] of the track.  [followTarget] is
    a reference to the player's horse, read at the time of the call: it
    is an argument here. *)
Record t : Type := make {
  scrollX : JS.num;
  scrollY : JS.num
}.

(** The scroll offsets that the constructor of the track sets. *)
Definition new : t := make (JS.Fin 0) (JS.Fin 0).

(** [updateScrolling()]. *)
Definition updateScrolling (track : Track.t) (followTarget : PlayerHorse.t)
                           (this : t) : t :=
  let targetX := PlayerHorse.x followTarget in
  let targetY := PlayerHorse.y followTarget in
  let desiredScrollX :=
    (targetX - JS.Fin (Canvas.width (Track.canvas track) / 2))%js in
  let desiredScrollY :=
    (targetY - JS.Fin (Canvas.height (Track.canvas track) / 2))%js in
  let lerpFactor := 0.1 in
  make (scrollX this + (desiredScrollX - scrollX this) * JS.Fin lerpFactor)%js
       (scrollY this + (desiredScrollY - scrollY this) * JS.Fin lerpFactor)%js.

(** [update(deltaTime)]: nothing moves while no target is set. *)
Definition update (track : Track.t) (followTarget : option PlayerHorse.t)
                  (deltaTime : R) (this : t) : t :=
  match followTarget with
  | Some target => updateScrolling track target this
  | None => this
  end.

End TrackCamera.

(* ================================================================== *)
(** * Math.random and Array.prototype.sort *)
(* ================================================================== *)

Module Math.

(** The draws that the following calls of [Math.random()] will return,
    in order. *)
Definition Rng : Type := nat -> R.

Definition random (g : Rng) : R * Rng := (g 0%nat, fun n => g (S n)).

End Math.

Module JSArray.

Section Sort.
Context {A : Type}.
Variable comparefn : A -> A -> JS.num.

(** [x], which stood before every element of the sorted [l], goes
    behind the elements that the comparison puts strictly before it;
    a NaN comparison counts as 0. *)
Fixpoint insert (x : A) (l : list A) : list A :=
  match l with
  | [] => [x]
  | y :: l' =>
      if (comparefn x y > JS.Fin 0)%js
      then y :: insert x l'
      else x :: y :: l'
  end.

(** [sort(comparefn)]: the stable sort that ECMAScript prescribes. *)
Fixpoint sort (l : list A) : list A :=
  match l with
  | [] => []
  | x :: l' => insert x (sort l')
  end.
End Sort.

(** [map((element, index) => ...)], counting from [index]. *)
Fixpoint mapi_from {A B : Type} (f : A -> nat -> B) (index : nat)
                   (l : list A) : list B :=
  match l with
  | [] => []
  | a :: l' => f a index :: mapi_from f (S index) l'
  end.

Definition mapi {A B : Type} (f : A -> nat -> B) (l : list A) : list B :=
  mapi_from f 0 l.

(** [a[i] = v]; an index past the end extends the array with holes,
    which read as a false value. *)
Fixpoint assign (i : nat) (v : bool) (l : list bool) : list bool :=
  match i, l with
  | O, [] => [v]
  | O, _ :: l' => v :: l'
  | S k, [] => false :: assign k v []
  | S k, a :: l' => a :: assign k v l'
  end.

End JSArray.

(* ================================================================== *)
(** * public/ai.js *)
(* ================================================================== *)

Module AIHorse.

Import InputHandler.

(** [class AIHorse extends PlayerHorse]: the inherited fields are
    [base]. *)
Record t : Type := make {
  base : PlayerHorse.t;
  difficulty : R;
  boostProbability : R;
  boostDuration : R;
  boostTimer : R;
  isBoosting : bool;
  strategicBoostPoints : list R;
  usedStrategicBoosts : list bool;
  conserveStaminaThreshold : R
}.

Definition set_base (v : PlayerHorse.t) (h : t) : t :=
  make v (difficulty h) (boostProbability h) (boostDuration h)
       (boostTimer h) (isBoosting h) (strategicBoostPoints h)
       (usedStrategicBoosts h) (conserveStaminaThreshold h).
Definition set_boostTimer (v : R) (h : t) : t :=
  make (base h) (difficulty h) (boostProbability h) (boostDuration h)
       v (isBoosting h) (strategicBoostPoints h)
       (usedStrategicBoosts h) (conserveStaminaThreshold h).
Definition set_isBoosting (v : bool) (h : t) : t :=
  make (base h) (difficulty h) (boostProbability h) (boostDuration h)
       (boostTimer h) v (strategicBoostPoints h)
       (usedStrategicBoosts h) (conserveStaminaThreshold h).
Definition set_usedStrategicBoosts (v : list bool) (h : t) : t :=
  make (base h) (difficulty h) (boostProbability h) (boostDuration h)
       (boostTimer h) (isBoosting h) (strategicBoostPoints h)
       v (conserveStaminaThreshold h).

(** [reset()]. *)
Definition reset (track : Track.t) (this : t) : t :=
  let this := set_base (PlayerHorse.reset track (base this)) this in
  let this := set_isBoosting false this in
  let this := set_boostTimer 0 this in
  set_usedStrategicBoosts [false; false] this.

(** [new AIHorse(track, laneNumber, color, difficulty)].  The [reset()]
    that the inherited constructor calls is the one above; what it
    assigns besides the inherited fields is assigned again below. *)
Definition new (track : Track.t) (laneNumber : Z) (color : string)
               (difficulty : R) (g : Math.Rng) : t * Math.Rng :=
  let super := PlayerHorse.new track laneNumber in
  let super := PlayerHorse.set_color color super in
  let (r, g) := Math.random g in
  let super := PlayerHorse.set_maxSpeed (400 + r * 200 * difficulty) super in
  let super :=
    PlayerHorse.set_boostMaxSpeed (PlayerHorse.maxSpeed super * 1.4) super in
  let (r, g) := Math.random g in
  let super :=
    PlayerHorse.set_acceleration (180 + r * 40 * difficulty) super in
  let (r, g) := Math.random g in
  let boostProbability' := 0.01 + (r * 0.03 * difficulty) in
  let (r, g) := Math.random g in
  let boostDuration' := 1 + r * 3 in
  let (r1, g) := Math.random g in
  let (r2, g) := Math.random g in
  let strategicBoostPoints' := [0.3 + r1 * 0.1; 0.7 + r2 * 0.1] in
  let (r, g) := Math.random g in
  let conserveStaminaThreshold' := 30 + r * 40 in
  (make super difficulty boostProbability' boostDuration' 0 false
        strategicBoostPoints' [false; false] conserveStaminaThreshold',
   g).

Definition trackProgress (track : Track.t) (this : t) : JS.num :=
  PlayerHorse.trackProgress track (base this).

(** The [for] loop of [determineInputState]: the first index, from [i]
    on, whose strategic boost fires; [points] are the boost points from
    index [i] on. *)
Fixpoint strategicLoop (progress : JS.num) (stamina : R)
                       (used : list bool) (points : list R) (i : nat)
  : option nat :=
  match points with
  | [] => None
  | p :: points' =>
      if negb (nth i used false)
         && (progress >= JS.Fin p)%js
         && (progress <= JS.Fin (p + 0.1))%js
         && Rgtb stamina 40
      then Some i
      else strategicLoop progress stamina used points' (S i)
  end.

(** [determineInputState(deltaTime)]. *)
Definition determineInputState (track : Track.t) (deltaTime : R) (this : t)
                               (g : Math.Rng)
  : InputState * t * Math.Rng :=
  let inputState := mkInputState true false in
  let '(inputState, this) :=
    if isBoosting this then
      let this := set_boostTimer (boostTimer this - deltaTime) this in
      if Rle_dec (boostTimer this) 0
      then (inputState, set_isBoosting false this)
      else (mkInputState (forward inputState) true, this)
    else (inputState, this) in
  let nearFinish := (trackProgress track this > JS.Fin 0.85)%js in
  if Rltb (PlayerHorse.stamina (base this)) (conserveStaminaThreshold this)
     && negb nearFinish
  then (inputState, this, g)
  else
    match strategicLoop (trackProgress track this)
                        (PlayerHorse.stamina (base this))
                        (usedStrategicBoosts this)
                        (strategicBoostPoints this) 0 with
    | Some i =>
        let this := set_isBoosting true this in
        let this := set_boostTimer (boostDuration this) this in
        let this :=
          set_usedStrategicBoosts
            (JSArray.assign i true (usedStrategicBoosts this)) this in
        (mkInputState (forward inputState) true, this, g)
    | None =>
        let '(inputState, this, g) :=
          if isBoosting this then (inputState, this, g)
          else
            let (r, g) := Math.random g in
            if Rltb r (boostProbability this * deltaTime * 60)
               && Rgtb (PlayerHorse.stamina (base this)) 30
            then
              let this := set_isBoosting true this in
              let this := set_boostTimer (boostDuration this) this in
              (mkInputState (forward inputState) true, this, g)
            else (inputState, this, g) in
        let inputState :=
          if nearFinish && Rgtb (PlayerHorse.stamina (base this)) 20
          then mkInputState (forward inputState) true
          else inputState in
        (inputState, this, g)
    end.

(** [update(deltaTime)]. *)
Definition update (track : Track.t) (deltaTime : R) (this : t)
                  (g : Math.Rng) : t * Math.Rng :=
  let '(inputState, this, g) := determineInputState track deltaTime this g in
  (set_base (PlayerHorse.update track deltaTime inputState (base this)) this,
   g).

Definition hasFinishedRace (this : t) : bool :=
  PlayerHorse.hasFinishedRace (base this).

(** [setTrack(track)], inherited: its [reset()] is the one of this
    class. *)
Definition setTrack (track : Track.t) (this : t) : t := reset track this.

End AIHorse.

Module AIManager.

Record t : Type := make {
  aiCount : nat;
  aiHorses : list AIHorse.t;
  colors : list string
}.

(** The body of the loop of [createAIHorses], from index [i], for [n]
    more horses. *)
Fixpoint createLoop (track : Track.t) (colors : list string)
                    (n i : nat) (g : Math.Rng)
  : list AIHorse.t * Math.Rng :=
  match n with
  | O => ([], g)
  | S n' =>
      let lane := (Z.of_nat i + 1)%Z in
      let lane := if (3 <=? lane)%Z then (lane + 1)%Z else lane in
      let difficulty := 0.8 + INR i * 0.1 in
      let (horse, g) :=
        AIHorse.new track lane
                    (nth (i mod List.length colors) colors ""%string)
                    difficulty g in
      let (horses, g) := createLoop track colors n' (S i) g in
      (horse :: horses, g)
  end.

(** [createAIHorses()]. *)
Definition createAIHorses (track : Track.t) (this : t) (g : Math.Rng)
  : t * Math.Rng :=
  let (horses, g) := createLoop track (colors this) (aiCount this) 0 g in
  (make (aiCount this) horses (colors this), g).

(** [new AIManager(track, count)]. *)
Definition new (track : Track.t) (count : nat) (g : Math.Rng)
  : t * Math.Rng :=
  createAIHorses track
    (make count []
          ["#3498DB"; "#2ECC71"; "#9B59B6"; "#F1C40F"; "#E74C3C";
           "#1ABC9C"; "#D35400"]%string)
    g.

(** The loop of [update]. *)
Fixpoint updateLoop (track : Track.t) (deltaTime : R)
                    (horses : list AIHorse.t) (g : Math.Rng)
  : list AIHorse.t * Math.Rng :=
  match horses with
  | [] => ([], g)
  | horse :: horses' =>
      let (horse, g) := AIHorse.update track deltaTime horse g in
      let (horses', g) := updateLoop track deltaTime horses' g in
      (horse :: horses', g)
  end.

(** [update(deltaTime)]. *)
Definition update (track : Track.t) (deltaTime : R) (this : t)
                  (g : Math.Rng) : t * Math.Rng :=
  let (horses, g) := updateLoop track deltaTime (aiHorses this) g in
  (make (aiCount this) horses (colors this), g).

(** [reset()]. *)
Definition reset (track : Track.t) (this : t) : t :=
  make (aiCount this) (map (AIHorse.reset track) (aiHorses this))
       (colors this).

(** [getFinishedHorses()]. *)
Definition getFinishedHorses (this : t) : list AIHorse.t :=
  filter AIHorse.hasFinishedRace (aiHorses this).

(** [getHorsesByProgress()]. *)
Definition getHorsesByProgress (track : Track.t) (this : t)
  : list AIHorse.t :=
  JSArray.sort
    (fun a b =>
       (AIHorse.trackProgress track b - AIHorse.trackProgress track a)%js)
    (aiHorses this).

(** [allFinished()]. *)
Definition allFinished (this : t) : bool :=
  forallb AIHorse.hasFinishedRace (aiHorses this).

(** [finishTime]: no code assigns this property, so it reads as
    undefined, and undefined minus undefined is NaN. *)
Definition finishTimeDifference (a b : PlayerHorse.t) : JS.num := JS.NaN.

(** The comparison function of [getRacePlacements]. *)
Definition placementOrder (track : Track.t) (a b : PlayerHorse.t) : JS.num :=
  if PlayerHorse.hasFinishedRace a && PlayerHorse.hasFinishedRace b
  then finishTimeDifference a b
  else if PlayerHorse.hasFinishedRace a then JS.Fin (-1)
  else if PlayerHorse.hasFinishedRace b then JS.Fin 1
  else (PlayerHorse.trackProgress track b
        - PlayerHorse.trackProgress track a)%js.

(** [getRacePlacements(playerHorse)]: the opponents, as racers, and the
    player behind them, sorted. *)
Definition getRacePlacements (track : Track.t) (this : t)
                             (playerHorse : PlayerHorse.t)
  : list PlayerHorse.t :=
  JSArray.sort (placementOrder track)
               (map AIHorse.base (aiHorses this) ++ [playerHorse]).

(** [setTrack(track)]. *)
Definition setTrack (track : Track.t) (this : t) : t :=
  make (aiCount this) (map (AIHorse.setTrack track) (aiHorses this))
       (colors this).

End AIManager.

(* ================================================================== *)
(** * public/raceLoop.js *)
(* ================================================================== *)

Module RaceGame.

Inductive GAME_STATE : Type :=
| LOADING
| MENU
| COUNTDOWN
| RACING
| FINISHED.

(** An element of the array that the first [map] of the ranking builds. *)
Record Entry : Type := mkEntry {
  entry_name : string;
  entry_color : string;
  entry_progress : JS.num
}.

(** An element of [finalPlacements]. *)
Record Placement : Type := mkPlacement {
  name : string;
  color : string;
  progress : JS.num;
  place : nat
}.

Record t : Type := make {
  canvas : Canvas.t;
  gameState : GAME_STATE;
  track : Track.t;
  playerHorse : PlayerHorse.t;
  aiManager : AIManager.t;
  inputHandler : InputHandler.t;
  resultsScreen_visible : bool;
  finalPlacements : list Placement;
  lastTimestamp : R;
  countdownTime : R;
  countdownTimer : R
}.

Definition set_gameState (v : GAME_STATE) (this : t) : t :=
  make (canvas this) v (track this) (playerHorse this) (aiManager this)
       (inputHandler this) (resultsScreen_visible this)
       (finalPlacements this) (lastTimestamp this) (countdownTime this)
       (countdownTimer this).
Definition set_countdownTimer (v : R) (this : t) : t :=
  make (canvas this) (gameState this) (track this) (playerHorse this)
       (aiManager this) (inputHandler this) (resultsScreen_visible this)
       (finalPlacements this) (lastTimestamp this) (countdownTime this) v.
Definition set_lastTimestamp (v : R) (this : t) : t :=
  make (canvas this) (gameState this) (track this) (playerHorse this)
       (aiManager this) (inputHandler this) (resultsScreen_visible this)
       (finalPlacements this) v (countdownTime this) (countdownTimer this).

Definition set_inputHandler (v : InputHandler.t) (this : t) : t :=
  make (canvas this) (gameState this) (track this) (playerHorse this)
       (aiManager this) v (resultsScreen_visible this)
       (finalPlacements this) (lastTimestamp this) (countdownTime this)
       (countdownTimer this).

(** [reset()]. *)
Definition reset (this : t) : t :=
  let track' := Track.handleResize (track this) (canvas this) in
  let playerHorse' := PlayerHorse.reset track' (playerHorse this) in
  let aiManager' := AIManager.reset track' (aiManager this) in
  make (canvas this) MENU track' playerHorse' aiManager'
       (inputHandler this) false [] (lastTimestamp this)
       (countdownTime this) (countdownTime this).

(** [init()]. *)
Definition init (this : t) : t := set_gameState MENU (reset this).

(** [new RaceGame(canvas)]. *)
Definition new (cv : Canvas.t) (g : Math.Rng) : t * Math.Rng :=
  let track' := Track.new cv in
  let playerHorse' := PlayerHorse.new track' 3 in
  let (aiManager', g) := AIManager.new track' 5 g in
  (init (make cv LOADING track' playerHorse' aiManager' InputHandler.new
              false [] 0 3 3),
   g).

(** [handleResize()], with the new size of the window. *)
Definition handleResize (innerWidth innerHeight : R) (this : t) : t :=
  let canvas' := Canvas.make innerWidth innerHeight in
  make canvas' (gameState this) (Track.handleResize (track this) canvas')
       (playerHorse this) (aiManager this) (inputHandler this)
       (resultsScreen_visible this) (finalPlacements this)
       (lastTimestamp this) (countdownTime this) (countdownTimer this).

(** The name that the ranking gives the horse at [index] of
    [allHorses]: the player is its first element. *)
Definition nameOf (index : nat) : string :=
  if Nat.eqb index 0 then "You"%string
  else ("AI " ++ NilEmpty.string_of_uint (Nat.to_uint index))%string.

(** The ranking that the RACING case computes from
    [[this.playerHorse, ...this.aiManager.aiHorses]]. *)
Definition computePlacements (track : Track.t) (allHorses : list PlayerHorse.t)
  : list Placement :=
  JSArray.mapi
    (fun entry i =>
       mkPlacement (entry_name entry) (entry_color entry)
                   (entry_progress entry) (i + 1))
    (JSArray.sort
       (fun a b => (entry_progress b - entry_progress a)%js)
       (JSArray.mapi
          (fun horse index =>
             mkEntry (nameOf index) (PlayerHorse.color horse)
                     (PlayerHorse.trackProgress track horse))
          allHorses)).

(** [update(deltaTime)]. *)
Definition update (deltaTime : R) (this : t) (g : Math.Rng)
  : t * Math.Rng :=
  match gameState this with
  | LOADING => (set_gameState MENU this, g)
  | MENU =>
      if InputHandler.forward (InputHandler.getInputState (inputHandler this))
      then (set_gameState COUNTDOWN this, g)
      else (this, g)
  | COUNTDOWN =>
      let this := set_countdownTimer (countdownTimer this - deltaTime) this in
      if Rle_dec (countdownTimer this) 0
      then (set_gameState RACING this, g)
      else (this, g)
  | RACING =>
      (* this.track.update(deltaTime) moves the camera only *)
      let inputState := InputHandler.getInputState (inputHandler this) in
      let playerHorse' :=
        PlayerHorse.update (track this) deltaTime inputState
                           (playerHorse this) in
      let (aiManager', g) :=
        AIManager.update (track this) deltaTime (aiManager this) g in
      let this :=
        make (canvas this) (gameState this) (track this) playerHorse'
             aiManager' (inputHandler this) (resultsScreen_visible this)
             (finalPlacements this) (lastTimestamp this)
             (countdownTime this) (countdownTimer this) in
      let this :=
        if PlayerHorse.hasFinishedRace (playerHorse this)
           && negb (resultsScreen_visible this)
        then
          let allHorses :=
            playerHorse this
            :: map AIHorse.base (AIManager.aiHorses (aiManager this)) in
          let placements := computePlacements (track this) allHorses in
          make (canvas this) FINISHED (track this) (playerHorse this)
               (aiManager this) (inputHandler this) true placements
               (lastTimestamp this) (countdownTime this)
               (countdownTimer this)
        else this in
      if AIManager.allFinished (aiManager this)
         && PlayerHorse.hasFinishedRace (playerHorse this)
      then (set_gameState FINISHED this, g)
      else (this, g)
  | FINISHED =>
      if InputHandler.forward (InputHandler.getInputState (inputHandler this))
         && resultsScreen_visible this
      then (set_gameState COUNTDOWN (reset this), g)
      else (this, g)
  end.

(** [gameLoop(timestamp)], without the drawing. *)
Definition gameLoop (timestamp : R) (this : t) (g : Math.Rng)
  : t * Math.Rng :=
  let deltaTime := (timestamp - lastTimestamp this) / 1000 in
  let this := set_lastTimestamp timestamp this in
  let cappedDeltaTime := Rmin deltaTime 0.1 in
  update cappedDeltaTime this g.

End RaceGame.

(* ================================================================== *)
(** * public/ui/resultsScreen.js *)
(* ================================================================== *)

Module ResultsScreen.

(** [getOrdinalSuffix(num)]. *)
Definition getOrdinalSuffix (num : nat) : string :=
  let j := (num mod 10)%nat in
  let k := (num mod 100)%nat in
  if Nat.eqb j 1 && negb (Nat.eqb k 11) then "st"%string
  else if Nat.eqb j 2 && negb (Nat.eqb k 12) then "nd"%string
  else if Nat.eqb j 3 && negb (Nat.eqb k 13) then "rd"%string
  else "th"%string.

(** The array [sortedPlacements] that [drawPlacements] draws from, top
    to bottom. *)
Definition sortedPlacements (placements : list RaceGame.Placement)
  : list RaceGame.Placement :=
  JSArray.sort
    (fun a b =>
       (JS.Fin (INR (RaceGame.place a)) - JS.Fin (INR (RaceGame.place b)))%js)
    placements.

(** The text that [drawPlacements] writes in front of a horse. *)
Definition placeText (horse : RaceGame.Placement) : string :=
  (NilEmpty.string_of_uint (Nat.to_uint (RaceGame.place horse))
   ++ getOrdinalSuffix (RaceGame.place horse))%string.

End ResultsScreen.

(* ================================================================== *)
(** * The vocabulary of the properties *)
(* ================================================================== *)

Import InputHandler.

Section MotionVocabulary.

Import PlayerHorse.

(** The rates and speed limits of a racer are not negative.  Both
    constructors establish this and no method assigns these fields. *)
Definition rates_nonneg (h : PlayerHorse.t) : Prop :=
  0 <= maxSpeed h /\ 0 <= boostMaxSpeed h /\ 0 <= acceleration h /\
  0 <= staminaDrainRate h /\ 0 <= staminaRecoveryRate h.

(** Speed is not negative and stamina lies between 0 and [maxStamina]. *)
Definition in_bounds (h : PlayerHorse.t) : Prop :=
  0 <= speed h /\ 0 <= stamina h <= maxStamina h.

(** A run of the motion model: one [update] per tick, each tick with its
    own elapsed time and control intent. *)
Fixpoint steps (track : Track.t) (ticks : list (R * InputState))
               (h : PlayerHorse.t) : PlayerHorse.t :=
  match ticks with
  | [] => h
  | (deltaTime, inputState) :: ticks' =>
      steps track ticks' (update track deltaTime inputState h)
  end.

End MotionVocabulary.

Section TrackVocabulary.

(** Ramanujan's approximation of the perimeter of the ellipse of radii
    [a] and [b]. *)
Definition ramanujan (a b : R) : R :=
  let h := (a - b) ^ 2 / (a + b) ^ 2 in
  PI * (a + b) * (1 + (3 * h) / (10 + sqrt (4 - 3 * h))).

(** The number that the arithmetic of [calculateTrackLength] yields on
    centre-line radii [a] and [b]. *)
Definition lengthOf (a b : R) : JS.num :=
  let h := (JS.Fin ((a - b) ^ 2) / JS.Fin ((a + b) ^ 2))%js in
  (JS.Fin (PI * (a + b))
   * (JS.Fin 1 + (JS.Fin 3 * h) / (JS.Fin 10 + JS.sqrt (JS.Fin 4 - JS.Fin 3 * h))))%js.

(** The invariant of the track: the inner radii are the outer radii
    less the track width, and the stored length is the length of the
    present centre line. *)
Definition track_invariant (t : Track.t) : Prop :=
  Track.innerRadiusX t = Track.outerRadiusX t - Track.trackWidth t /\
  Track.innerRadiusY t = Track.outerRadiusY t - Track.trackWidth t /\
  Track.totalLength t = Track.calculateTrackLength t.

(** The same invariant for the version with the flattened oval. *)
Definition perspective_track_invariant (t : TrackPerspective.t) : Prop :=
  TrackPerspective.innerRadiusX t
  = TrackPerspective.outerRadiusX t - TrackPerspective.trackWidth t /\
  TrackPerspective.innerRadiusY t
  = TrackPerspective.outerRadiusY t - TrackPerspective.trackWidth t /\
  TrackPerspective.totalLength t = TrackPerspective.calculateTrackLength t.

(** A track whose stored length is zero. *)
Definition zeroLengthTrack : Track.t :=
  Track.make (Canvas.make 1000 800) 500 400 400 280 120 280 160
             (JS.Fin 0) 6 20.

(** The angle that [getTrackPosition] computes on a track whose length
    is the finite number [L], other than zero. *)
Definition angleAt (L distance : R) : R :=
  (distance - L * IZR (JS.trunc (distance / L))) / L * 2 * PI + PI / 2.

(** The oval of a lane, by its parameter angle. *)
Definition laneRadiusX (track : Track.t) (lane : Z) : R :=
  Track.innerRadiusX track + IZR lane * Track.laneSpacing track.

Definition laneRadiusY (track : Track.t) (lane : Z) : R :=
  Track.innerRadiusY track + IZR lane * Track.laneSpacing track.




End TrackVocabulary.

Section RankingVocabulary.

Import RaceGame.

(** [a] is not behind [b] in a descending order of numbers. *)
Definition num_ge (a b : JS.num) : Prop := (a >= b)%js = true.

(** The comparison function [(a, b) => key(b) - key(a)]. *)
Definition descending {A : Type} (key : A -> JS.num) (a b : A) : JS.num :=
  (key b - key a)%js.

(** The entries that the ranking starts from, in the order of
    [allHorses]. *)
Definition entriesOf (track : Track.t) (allHorses : list PlayerHorse.t)
  : list Entry :=
  JSArray.mapi
    (fun horse index =>
       mkEntry (nameOf index) (PlayerHorse.color horse)
               (PlayerHorse.trackProgress track horse))
    allHorses.

(** A placement without its place. *)
Definition entryOf (p : Placement) : Entry :=
  mkEntry (name p) (color p) (progress p).

(** The second [map] of the ranking: the entry at index [i] takes the
    place [i + 1]. *)
Definition withPlace (entry : Entry) (i : nat) : Placement :=
  mkPlacement (entry_name entry) (entry_color entry) (entry_progress entry)
              (i + 1).

(** A track of length 1000 and a horse that has covered [d] on it. *)
Definition scenarioTrack : Track.t :=
  Track.make (Canvas.make 1000 800) 500 400 400 280 120 280 160
             (JS.Fin 1000) 6 20.

Definition scenarioHorse (d : R) : PlayerHorse.t :=
  PlayerHorse.set_distance d (PlayerHorse.new scenarioTrack 3).

(** A race on the track of a 700 by 800 canvas, of length 440 pi, in
    which the player has covered 1800 and holds the forward key. *)
Definition finishingGame : RaceGame.t :=
  let track0 := Track.new (Canvas.make 700 800) in
  RaceGame.make
    (Canvas.make 700 800) RACING track0
    (PlayerHorse.set_speed 500
       (PlayerHorse.set_distance 1800 (PlayerHorse.new track0 3)))
    (fst (AIManager.new track0 5 (fun _ => 0.5)))
    (InputHandler.make (mkInputState true false)
                       ["ArrowUp"; "w"; "W"]%string ["Space"; " "]%string)
    false [] 0 3 0.

End RankingVocabulary.

Section LaneVocabulary.

(** The lane of an opponent. *)
Definition laneOf (a : AIHorse.t) : Z :=
  PlayerHorse.laneNumber (AIHorse.base a).

(** A lane index that the track has. *)
Definition valid_lane (track : Track.t) (lane : Z) : Prop :=
  (0 <= lane < Track.laneCount track)%Z.

End LaneVocabulary.

Section RestartVocabulary.

Import RaceGame.

(** The constants of an opponent's profile. *)
Definition profileOf (a : AIHorse.t)
  : R * R * R * R * R * list R * R :=
  (PlayerHorse.maxSpeed (AIHorse.base a),
   PlayerHorse.boostMaxSpeed (AIHorse.base a),
   PlayerHorse.acceleration (AIHorse.base a),
   AIHorse.boostProbability a,
   AIHorse.boostDuration a,
   AIHorse.strategicBoostPoints a,
   AIHorse.conserveStaminaThreshold a).

(** [h'] is [h] back at the start of a race: nothing covered, at rest,
    stamina full, not finished. *)
Definition racer_restarted (h h' : PlayerHorse.t) : Prop :=
  PlayerHorse.distance h' = 0 /\
  PlayerHorse.speed h' = 0 /\
  PlayerHorse.stamina h' = PlayerHorse.maxStamina h /\
  PlayerHorse.maxStamina h' = PlayerHorse.maxStamina h /\
  PlayerHorse.finished h' = false.

(** [a'] is the opponent [a] back at the start of a race: its racer
    state restarted, no boost running, no strategic boost used, and the
    profile that it had. *)
Definition opponent_restarted (a a' : AIHorse.t) : Prop :=
  racer_restarted (AIHorse.base a) (AIHorse.base a') /\
  AIHorse.boostTimer a' = 0 /\
  AIHorse.isBoosting a' = false /\
  AIHorse.usedStrategicBoosts a' = [false; false] /\
  profileOf a' = profileOf a.

(** A game that has ended, with a ranking stored and showing, while the
    forward key is held. *)
Definition finishedGame : RaceGame.t :=
  let track0 := Track.new (Canvas.make 700 800) in
  let player :=
    PlayerHorse.set_finished true
      (PlayerHorse.set_stamina 35
         (PlayerHorse.set_speed 500
            (PlayerHorse.set_distance 1800 (PlayerHorse.new track0 3)))) in
  let manager := fst (AIManager.new track0 5 (fun _ => 0.5)) in
  RaceGame.make
    (Canvas.make 700 800) FINISHED track0 player manager
    (InputHandler.make (mkInputState true false)
                       ["ArrowUp"; "w"; "W"]%string ["Space"; " "]%string)
    true
    (computePlacements track0
       (player :: map AIHorse.base (AIManager.aiHorses manager)))
    0 3 0.

End RestartVocabulary.

Section FurtherVocabulary.

Import PlayerHorse.

(** The speed limit that a step with this intent works with. *)
Definition currentMaxSpeed (inputState : InputState) (h : PlayerHorse.t) : R :=
  if boost inputState && Rgtb (stamina h) 0
  then boostMaxSpeed h
  else maxSpeed h.

(** [n] ticks of [handleInput] with no key held. *)
Definition coast (n : nat) (deltaTime : R) (h : PlayerHorse.t)
  : PlayerHorse.t :=
  Nat.iter n (handleInput deltaTime (mkInputState false false)) h.

(** The position and heading of the racer are those of its distance
    and lane on the track. *)
Definition synced (track : Track.t) (h : PlayerHorse.t) : Prop :=
  Track.mkPosition (x h) (y h) (angle h)
  = Track.getTrackPosition track (distance h) (laneNumber h).

(** The racer has non-negative rates and is within its bounds. *)
Definition racer_ok (h : PlayerHorse.t) : Prop :=
  rates_nonneg h /\ in_bounds h.

(** Every racer of the game is. *)
Definition game_in_bounds (game : RaceGame.t) : Prop :=
  racer_ok (RaceGame.playerHorse game) /\
  Forall (fun a => racer_ok (AIHorse.base a))
         (AIManager.aiHorses (RaceGame.aiManager game)).

(** [Math.random] returns numbers from 0, included, to 1, excluded. *)
Definition unit_draws (g : Math.Rng) : Prop := forall n, 0 <= g n < 1.

(** What the browser delivers to the game: key presses and releases,
    loss of focus, a new size of the window, and animation frames with
    their timestamps in milliseconds. *)
Inductive Event : Type :=
| KeyDown (key : string)
| KeyUp (key : string)
| Blur
| Resize (innerWidth innerHeight : R)
| AnimationFrame (timestamp : R).

(** The listener of the event, run on the game. *)
Definition dispatch (e : Event) (game : RaceGame.t) (g : Math.Rng)
  : RaceGame.t * Math.Rng :=
  match e with
  | KeyDown key =>
      (RaceGame.set_inputHandler
         (InputHandler.handleKeyDown key (RaceGame.inputHandler game)) game,
       g)
  | KeyUp key =>
      (RaceGame.set_inputHandler
         (InputHandler.handleKeyUp key (RaceGame.inputHandler game)) game,
       g)
  | Blur =>
      (RaceGame.set_inputHandler
         (InputHandler.handleBlur (RaceGame.inputHandler game)) game,
       g)
  | Resize innerWidth innerHeight =>
      (RaceGame.handleResize innerWidth innerHeight game, g)
  | AnimationFrame timestamp => RaceGame.gameLoop timestamp game g
  end.

(** The game after a sequence of events. *)
Fixpoint run (events : list Event) (game : RaceGame.t) (g : Math.Rng)
  : RaceGame.t * Math.Rng :=
  match events with
  | [] => (game, g)
  | e :: events' =>
      let (game, g) := dispatch e game g in
      run events' game g
  end.

(** The timestamps of the animation frames never go back, starting
    from [last]. *)
Fixpoint timestamps_ascend (last : R) (events : list Event) : Prop :=
  match events with
  | [] => True
  | AnimationFrame timestamp :: events' =>
      last <= timestamp /\ timestamps_ascend timestamp events'
  | _ :: events' => timestamps_ascend last events'
  end.

(** The number of animation frames among the events. *)
Fixpoint frameCount (events : list Event) : nat :=
  match events with
  | [] => 0
  | AnimationFrame _ :: events' => S (frameCount events')
  | _ :: events' => frameCount events'
  end.

(** The fields that no step assigns. *)
Definition constants_of (h : PlayerHorse.t)
  : Z * (R * R * R * R) * (R * R * R) * (R * R * string) :=
  (laneNumber h,
   (maxSpeed h, boostMaxSpeed h, acceleration h, deceleration h),
   (maxStamina h, staminaDrainRate h, staminaRecoveryRate h),
   (width h, height h, color h)).

(** A fresh opponent on the track of length 1000: its profile is drawn
    with every draw 0.5 (conserve threshold 50, boost duration 2.5,
    boost points 0.35 and 0.75). *)
Definition scenarioOpponent : AIHorse.t :=
  fst (AIHorse.new scenarioTrack 1 "#3498DB" 1 (fun _ => 0.5)).

(** The lane that [createAIHorses] gives the opponent of index [i]. *)
Definition laneFor (i : nat) : Z :=
  if (3 <=? Z.of_nat i + 1)%Z then (Z.of_nat i + 1 + 1)%Z
  else (Z.of_nat i + 1)%Z.

(** The key lists are those that the constructor sets. *)
Definition standard_keys (h : InputHandler.t) : Prop :=
  keys_forward h = ["ArrowUp"; "w"; "W"]%string /\
  keys_boost h = ["Space"; " "]%string.

End FurtherVocabulary.

Section PerspectiveVocabulary.

Import TrackPerspective.

(** The vertical radius of a lane of the flattened oval, before the
    flattening. *)
Definition perspectiveRadiusY (t : TrackPerspective.t) (lane : Z) : R :=
  innerRadiusY t + IZR lane * laneSpacing t.

End PerspectiveVocabulary.

(* ================================================================== *)
(** * Proofs *)
(* ================================================================== *)

(** Case analysis on every comparison of reals that decides a branch. *)
Ltac split_comparisons :=
  unfold Rgtb, Rltb in *;
  repeat match goal with
         | |- context [Rlt_dec ?a ?b] => destruct (Rlt_dec a b); simpl in *
         | |- context [Rle_dec ?a ?b] => destruct (Rle_dec a b); simpl in *
         | |- context [Req_dec_T ?a ?b] =>
             destruct (Req_dec_T a b); simpl in *
         end.

(** ** The motion model: bounds on speed and stamina *)

Section MotionModel.

Import PlayerHorse.

Lemma handleInput_in_bounds (deltaTime : R) (inputState : InputState)
      (h : PlayerHorse.t) :
  0 <= deltaTime -> rates_nonneg h -> in_bounds h ->
  in_bounds (handleInput deltaTime inputState h).
Proof.
  intros Hdt (Hm & Hb & Ha & Hd & Hr) (Hs & Hst0 & Hst1).
  pose proof (Rmult_le_pos _ _ Ha Hdt) as Pa.
  pose proof (Rmult_le_pos _ _ Hd Hdt) as Pd.
  pose proof (Rmult_le_pos _ _ Hr Hdt) as Pr.
  destruct h; destruct inputState as [f b]; simpl in *.
  unfold handleInput, in_bounds; simpl.
  destruct f, b; simpl; split_comparisons; lra.
Qed.

Lemma handleInput_constants (deltaTime : R) (inputState : InputState)
      (h : PlayerHorse.t) :
  let h' := handleInput deltaTime inputState h in
  maxSpeed h' = maxSpeed h /\ boostMaxSpeed h' = boostMaxSpeed h /\
  acceleration h' = acceleration h /\ deceleration h' = deceleration h /\
  maxStamina h' = maxStamina h /\
  staminaDrainRate h' = staminaDrainRate h /\
  staminaRecoveryRate h' = staminaRecoveryRate h /\
  distance h' = distance h /\ finished h' = finished h /\
  laneNumber h' = laneNumber h.
Proof.
  destruct h; destruct inputState as [f b]; unfold handleInput; simpl.
  destruct f, b; simpl; split_comparisons; repeat split; reflexivity.
Qed.

Lemma update_constants (track : Track.t) (deltaTime : R)
      (inputState : InputState) (h : PlayerHorse.t) :
  let h' := update track deltaTime inputState h in
  maxSpeed h' = maxSpeed h /\ boostMaxSpeed h' = boostMaxSpeed h /\
  acceleration h' = acceleration h /\ deceleration h' = deceleration h /\
  maxStamina h' = maxStamina h /\
  staminaDrainRate h' = staminaDrainRate h /\
  staminaRecoveryRate h' = staminaRecoveryRate h /\
  laneNumber h' = laneNumber h.
Proof.
  unfold update. destruct (finished h).
  - simpl; repeat split; reflexivity.
  - pose proof (handleInput_constants deltaTime inputState h) as H.
    simpl in H. destruct H as (H1 & H2 & H3 & H4 & H5 & H6 & H7 & _ & _ & H8).
    unfold checkRaceCompletion, updatePosition. simpl.
    match goal with |- context [if ?c then _ else _] => destruct c end;
      simpl; repeat split; assumption.
Qed.

Lemma update_speed_stamina (track : Track.t) (deltaTime : R)
      (inputState : InputState) (h : PlayerHorse.t) :
  finished h = false ->
  speed (update track deltaTime inputState h)
  = speed (handleInput deltaTime inputState h) /\
  stamina (update track deltaTime inputState h)
  = stamina (handleInput deltaTime inputState h).
Proof.
  intros Hf. unfold update. rewrite Hf.
  unfold checkRaceCompletion, updatePosition. simpl.
  match goal with |- context [if ?c then _ else _] => destruct c end;
    simpl; split; reflexivity.
Qed.

Lemma update_rates_nonneg (track : Track.t) (deltaTime : R)
      (inputState : InputState) (h : PlayerHorse.t) :
  rates_nonneg h -> rates_nonneg (update track deltaTime inputState h).
Proof.
  unfold rates_nonneg.
  pose proof (update_constants track deltaTime inputState h) as H.
  simpl in H. destruct H as (H1 & H2 & H3 & _ & _ & H6 & H7 & _).
  rewrite H1, H2, H3, H6, H7. tauto.
Qed.

Lemma new_player_rates_nonneg (track : Track.t) (lane : Z) :
  rates_nonneg (PlayerHorse.new track lane)
  /\ in_bounds (PlayerHorse.new track lane).
Proof. unfold rates_nonneg, in_bounds. simpl. lra. Qed.

End MotionModel.

Section MotionModelClaims.

Import PlayerHorse.

Lemma new_ai_rates_nonneg (track : Track.t) (lane : Z) (color : string)
      (difficulty : R) (g : Math.Rng) :
  0 <= difficulty -> (forall n, 0 <= g n < 1) ->
  rates_nonneg (AIHorse.base (fst (AIHorse.new track lane color difficulty g)))
  /\ in_bounds (AIHorse.base (fst (AIHorse.new track lane color difficulty g))).
Proof.
  intros Hd Hg. unfold rates_nonneg, in_bounds. simpl.
  pose proof (Hg 0%nat) as H0. pose proof (Hg 1%nat) as H1.
  assert (0 <= g 0%nat * 200 * difficulty) by
    (apply Rmult_le_pos; [lra | exact Hd]).
  assert (0 <= g 1%nat * 40 * difficulty) by
    (apply Rmult_le_pos; [lra | exact Hd]).
  lra.
Qed.

Lemma update_in_bounds (track : Track.t) (deltaTime : R)
      (inputState : InputState) (h : PlayerHorse.t) :
  0 <= deltaTime -> rates_nonneg h -> in_bounds h ->
  in_bounds (update track deltaTime inputState h).
Proof.
  intros Hdt Hr Hb.
  pose proof (handleInput_in_bounds deltaTime inputState h Hdt Hr Hb) as Hi.
  destruct (finished h) eqn:Hf.
  - unfold update. rewrite Hf. exact Hb.
  - destruct (update_speed_stamina track deltaTime inputState h Hf) as [E1 E2].
    destruct (update_constants track deltaTime inputState h)
      as (_ & _ & _ & _ & E3 & _).
    destruct (handleInput_constants deltaTime inputState h)
      as (_ & _ & _ & _ & E4 & _).
    unfold in_bounds in *. rewrite E1, E2, E3. rewrite E4 in Hi. exact Hi.
Qed.

(** C1.  A racer whose speed is not negative and whose stamina lies in
    [0, maxStamina] is in the same bounds after one step, for every
    control intent and every non-negative elapsed time: after
    [handleInput], which holds the clamps, and after the whole
    [update]. *)
Theorem step_keeps_speed_and_stamina_in_bounds
        (track : Track.t) (deltaTime : R) (inputState : InputState)
        (h : PlayerHorse.t) :
  0 <= deltaTime -> rates_nonneg h -> in_bounds h ->
  in_bounds (handleInput deltaTime inputState h) /\
  in_bounds (update track deltaTime inputState h).
Proof.
  intros Hdt Hr Hb. split.
  - apply handleInput_in_bounds; assumption.
  - apply update_in_bounds; assumption.
Qed.

Lemma step_keeps_speed_and_stamina_in_bounds_witness :
  let track := Track.new (Canvas.make 1000 800) in
  let h := PlayerHorse.new track 3 in
  let inputState := mkInputState true true in
  (0 <= 0.1 /\ rates_nonneg h /\ in_bounds h) /\
  in_bounds (handleInput 0.1 inputState h) /\
  in_bounds (update track 0.1 inputState h).
Proof.
  intros track h inputState.
  assert (H0 : 0 <= 0.1) by lra.
  destruct (new_player_rates_nonneg track 3) as [H1 H2].
  split; [exact (conj H0 (conj H1 H2))|].
  exact (step_keeps_speed_and_stamina_in_bounds
           track 0.1 inputState h H0 H1 H2).
Defined.

(** The bounds hold after every tick of a run. *)
Lemma steps_in_bounds (track : Track.t) (ticks : list (R * InputState)) :
  forall h : PlayerHorse.t,
    Forall (fun tick => 0 <= fst tick) ticks ->
    rates_nonneg h -> in_bounds h ->
    rates_nonneg (steps track ticks h) /\ in_bounds (steps track ticks h).
Proof.
  induction ticks as [|[deltaTime inputState] ticks IH]; intros h Hd Hr Hb.
  - simpl; split; assumption.
  - inversion Hd as [|? ? Hdt Hd']; subst. simpl in Hdt. simpl.
    apply IH.
    + exact Hd'.
    + apply update_rates_nonneg; exact Hr.
    + apply update_in_bounds; assumption.
Qed.

End MotionModelClaims.

(** ** The motion model: stamina recovery *)

Section StaminaRecovery.

Import PlayerHorse.

(** While accelerating without boost, stamina recovers once. *)
Lemma accelerating_step_recovers_once (deltaTime : R) (h : PlayerHorse.t) :
  stamina (handleInput deltaTime (mkInputState true false) h)
  = Rmin (maxStamina h) (stamina h + staminaRecoveryRate h * deltaTime).
Proof.
  destruct h; unfold handleInput, Rmin; simpl.
  split_comparisons;
    repeat match goal with
           | |- context [Rle_dec ?a ?b] => destruct (Rle_dec a b); simpl in *
           end; lra.
Qed.

(** While decelerating without boost, both recovery blocks of
    [handleInput] run: stamina recovers twice the rate. *)
Lemma decelerating_step_recovers_twice (deltaTime : R) (h : PlayerHorse.t) :
  0 <= deltaTime -> 0 <= staminaRecoveryRate h ->
  stamina (handleInput deltaTime (mkInputState false false) h)
  = Rmin (maxStamina h) (stamina h + 2 * staminaRecoveryRate h * deltaTime).
Proof.
  intros Hdt Hr. pose proof (Rmult_le_pos _ _ Hr Hdt) as P.
  destruct h; unfold handleInput, Rmin; simpl in *.
  split_comparisons;
    repeat match goal with
           | |- context [Rle_dec ?a ?b] => destruct (Rle_dec a b); simpl in *
           end; lra.
Qed.

(** C2.  The player's horse with stamina 50, neither key held, one tick
    of 0.1 s: the stamina after the step is 52, and the recovery of one
    [staminaRecoveryRate * deltaTime], capped at [maxStamina], would be
    51. *)
Theorem decelerating_step_recovers_52_not_51 (track : Track.t) :
  let h := set_stamina 50 (PlayerHorse.new track 3) in
  stamina (handleInput 0.1 (mkInputState false false) h) = 52 /\
  stamina (update track 0.1 (mkInputState false false) h) = 52 /\
  Rmin (maxStamina h) (stamina h + staminaRecoveryRate h * 0.1) = 51.
Proof.
  intros h.
  assert (E : stamina (handleInput 0.1 (mkInputState false false) h) = 52).
  { rewrite decelerating_step_recovers_twice; simpl; try lra.
    unfold Rmin. destruct (Rle_dec _ _); lra. }
  split; [exact E|]. split.
  - destruct (update_speed_stamina track 0.1 (mkInputState false false) h)
      as [_ E2]; [reflexivity|].
    rewrite E2. exact E.
  - simpl. unfold Rmin. destruct (Rle_dec _ _); lra.
Qed.

End StaminaRecovery.

(** ** The finish latch *)

Section FinishLatch.

Import PlayerHorse.

Lemma update_finished_noop (track : Track.t) (deltaTime : R)
      (inputState : InputState) (h : PlayerHorse.t) :
  finished h = true -> update track deltaTime inputState h = h.
Proof. intros Hf. unfold update. rewrite Hf. reflexivity. Qed.

Lemma update_finished_iff (track : Track.t) (deltaTime : R)
      (inputState : InputState) (h : PlayerHorse.t) :
  finished h = false ->
  let h' := update track deltaTime inputState h in
  finished h' = true
  <-> (JS.Fin (distance h') >= Track.totalLength track)%js = true.
Proof.
  intros Hf h'. subst h'. unfold update. rewrite Hf.
  pose proof (handleInput_constants deltaTime inputState h) as H.
  simpl in H. destruct H as (_ & _ & _ & _ & _ & _ & _ & _ & Hfin & _).
  set (h1 := updatePosition track deltaTime
                            (handleInput deltaTime inputState h)).
  assert (Hf1 : finished h1 = false) by (unfold h1; simpl; congruence).
  unfold checkRaceCompletion.
  destruct (JS.Fin (distance h1) >= Track.totalLength track)%js eqn:E.
  - change (distance (set_finished true h1)) with (distance h1).
    rewrite E. simpl. tauto.
  - rewrite E, Hf1. split; discriminate.
Qed.

(** C3.  The finished flag is a latch.  A step of a racer that has not
    finished sets the flag exactly when the distance after the step has
    reached the track length; a step of a racer that has finished
    leaves the flag set and leaves the distance as it was. *)
Theorem finished_is_a_latch (track : Track.t) (deltaTime : R)
        (inputState : InputState) (h : PlayerHorse.t) :
  let h' := update track deltaTime inputState h in
  (finished h = false ->
   (finished h' = true
    <-> (JS.Fin (distance h') >= Track.totalLength track)%js = true))
  /\ (finished h = true ->
      finished h' = true /\ distance h' = distance h).
Proof.
  simpl. split.
  - intros Hf. apply (update_finished_iff track deltaTime inputState h Hf).
  - intros Hf. rewrite update_finished_noop by exact Hf. split; [exact Hf|].
    reflexivity.
Qed.

(** Over a whole run the flag, once set, stays set and the distance
    stays where it was. *)
Lemma steps_finished (track : Track.t) (ticks : list (R * InputState))
      (h : PlayerHorse.t) :
  finished h = true -> steps track ticks h = h.
Proof.
  intros Hf. induction ticks as [|[deltaTime inputState] ticks IH].
  - reflexivity.
  - simpl. rewrite update_finished_noop by exact Hf. exact IH.
Qed.

(** C10.  A step of a racer that has finished returns the racer as it
    was: every field (distance, finished, speed, stamina, x, y, angle
    and the rest) keeps its value, for every control intent and every
    elapsed time. *)
Theorem update_of_finished_racer_is_noop (track : Track.t) (deltaTime : R)
        (inputState : InputState) (h : PlayerHorse.t) :
  finished h = true -> update track deltaTime inputState h = h.
Proof. intros Hf. unfold update. rewrite Hf. reflexivity. Qed.

Lemma update_of_finished_racer_is_noop_witness :
  let track := Track.new (Canvas.make 1000 800) in
  let h := set_stamina 40 (set_finished true (PlayerHorse.new track 3)) in
  finished h = true /\
  update track 0.1 (mkInputState true false) h = h.
Proof.
  intros track h. split; [reflexivity|].
  exact (update_of_finished_racer_is_noop
           track 0.1 (mkInputState true false) h eq_refl).
Defined.

(** An opponent that has finished still runs its decision heuristic,
    which may touch its timers, but its racer state is left alone. *)
Lemma ai_update_of_finished_racer (track : Track.t) (deltaTime : R)
      (a : AIHorse.t) (g : Math.Rng) :
  finished (AIHorse.base a) = true ->
  AIHorse.base (fst (AIHorse.update track deltaTime a g)) = AIHorse.base a.
Proof.
  intros Hf. unfold AIHorse.update.
  assert (Hb : forall i a' g',
             AIHorse.determineInputState track deltaTime a g = (i, a', g') ->
             AIHorse.base a' = AIHorse.base a).
  { unfold AIHorse.determineInputState. intros i a' g'.
    destruct (AIHorse.isBoosting a); simpl;
      repeat match goal with
             | |- context [Rle_dec ?x ?y] => destruct (Rle_dec x y); simpl
             | |- context [if ?c then _ else _] => destruct c; simpl
             | |- context [match ?c with Some _ => _ | None => _ end] =>
                 destruct c; simpl
             end;
      intros E; inversion E; reflexivity. }
  destruct (AIHorse.determineInputState track deltaTime a g) as [[i a'] g']
    eqn:E.
  simpl. rewrite (Hb i a' g' eq_refl).
  apply update_finished_noop. exact Hf.
Qed.

End FinishLatch.

(** ** The track: length and resize *)

Section TrackLength.

Lemma lengthOf_ramanujan (a b : R) :
  a + b <> 0 -> 0 <= 4 - 3 * ((a - b) ^ 2 / (a + b) ^ 2) ->
  lengthOf a b = JS.Fin (ramanujan a b).
Proof.
  intros Hab Hh. unfold lengthOf, ramanujan. simpl in Hh |- *.
  destruct (Req_dec_T ((a + b) * ((a + b) * 1)) 0) as [E|_].
  { exfalso. apply Hab. rewrite Rmult_1_r in E.
    apply Rmult_integral in E. tauto. }
  simpl. unfold JS.sub; simpl.
  set (h := (a - b) * ((a - b) * 1) / ((a + b) * ((a + b) * 1))) in *.
  destruct (Rlt_dec (4 + - (3 * h)) 0) as [Hlt|_].
  { exfalso. unfold Rminus in Hh. lra. }
  simpl.
  pose proof (sqrt_pos (4 + - (3 * h))) as Hs.
  destruct (Req_dec_T (10 + sqrt (4 + - (3 * h))) 0) as [E|_];
    [exfalso; lra|].
  reflexivity.
Qed.

Lemma centre_line_ratio (a b : R) :
  0 < a -> 0 < b ->
  0 < (a + b) ^ 2 /\ 0 <= (a - b) ^ 2 / (a + b) ^ 2 <= 1.
Proof.
  intros Ha Hb.
  assert (Hsum : 0 < (a + b) ^ 2) by (apply pow_lt; lra).
  assert (Hab : 0 < a * b) by (apply Rmult_lt_0_compat; lra).
  split; [exact Hsum|]. split.
  - apply Rmult_le_pos; [apply pow2_ge_0|].
    left. apply Rinv_0_lt_compat. exact Hsum.
  - apply (Rmult_le_reg_r ((a + b) ^ 2)); [exact Hsum|].
    unfold Rdiv. rewrite Rmult_assoc, Rinv_l by lra.
    replace ((a + b) ^ 2) with ((a - b) ^ 2 + 4 * (a * b)) by ring. lra.
Qed.

Lemma lengthOf_positive_radii (a b : R) :
  0 < a -> 0 < b ->
  lengthOf a b = JS.Fin (ramanujan a b) /\ 0 < ramanujan a b.
Proof.
  intros Ha Hb.
  destruct (centre_line_ratio a b Ha Hb) as (Hsum & Hh0 & Hh1).
  split.
  - apply lengthOf_ramanujan; lra.
  - unfold ramanujan. cbv zeta.
    set (h := (a - b) ^ 2 / (a + b) ^ 2) in *.
    pose proof (sqrt_pos (4 - 3 * h)) as Hs.
    pose proof PI_RGT_0 as Hpi.
    assert (0 <= 3 * h / (10 + sqrt (4 - 3 * h))).
    { apply Rmult_le_pos; [lra|]. left. apply Rinv_0_lt_compat. lra. }
    apply Rmult_lt_0_compat; [|lra].
    apply Rmult_lt_0_compat; lra.
Qed.

(** On a circle the approximation is the circumference. *)
Lemma lengthOf_circle (a : R) :
  0 < a -> lengthOf a a = JS.Fin (2 * a * PI).
Proof.
  intros Ha. destruct (lengthOf_positive_radii a a Ha Ha) as [E _].
  rewrite E. f_equal. unfold ramanujan. cbv zeta.
  replace ((a - a) ^ 2 / (a + a) ^ 2) with 0 by (simpl; field; lra).
  pose proof (sqrt_pos (4 - 3 * 0)) as Hs.
  field. lra.
Qed.

(** The length is never the number zero: it is a finite number other
    than zero, or it is NaN (when the radii cancel, or are of opposite
    signs and far apart). *)
Lemma lengthOf_cases (a b : R) :
  lengthOf a b = JS.NaN \/ exists L, L <> 0 /\ lengthOf a b = JS.Fin L.
Proof.
  destruct (Req_dec_T (a + b) 0) as [E0|Hab].
  - left. unfold lengthOf. cbn [JS.div].
    assert (Hz : (a + b) ^ 2 = 0) by (rewrite E0; simpl; lra).
    destruct (Req_dec_T ((a + b) ^ 2) 0) as [_|H]; [|contradiction].
    destruct (Req_dec_T ((a - b) ^ 2) 0) as [_|_]; [reflexivity|].
    unfold JS.inf_like.
    destruct (Rle_dec 0 ((a - b) ^ 2)) as [_|H];
      [|exfalso; apply H; apply pow2_ge_0].
    cbn [JS.mul]. destruct (Req_dec_T 3 0) as [H|_]; [exfalso; lra|].
    unfold JS.inf_like.
    destruct (Rle_dec 0 3) as [_|H]; [|exfalso; lra].
    reflexivity.
  - set (h := (a - b) ^ 2 / (a + b) ^ 2).
    assert (Hsq : 0 < (a + b) ^ 2).
    { destruct (pow2_ge_0 (a + b)) as [H|H]; [exact H|].
      exfalso. apply Hab. symmetry in H. simpl in H.
      rewrite Rmult_1_r in H. apply Rmult_integral in H. tauto. }
    assert (Hh : 0 <= h).
    { apply Rmult_le_pos; [apply pow2_ge_0|].
      left. apply Rinv_0_lt_compat. exact Hsq. }
    destruct (Rlt_dec (4 - 3 * h) 0) as [Hneg|Hpos].
    + left. unfold lengthOf. cbn [JS.div].
      destruct (Req_dec_T ((a + b) ^ 2) 0) as [H|_]; [exfalso; lra|].
      fold h. cbn [JS.mul JS.sub JS.neg JS.add JS.sqrt].
      destruct (Rlt_dec (4 + - (3 * h)) 0) as [_|H];
        [reflexivity|exfalso; apply H; unfold Rminus in Hneg; exact Hneg].
    + right. exists (ramanujan a b). split.
      * unfold ramanujan. cbv zeta. fold h.
        pose proof (sqrt_pos (4 - 3 * h)) as Hs.
        pose proof PI_RGT_0 as Hpi.
        assert (0 <= 3 * h / (10 + sqrt (4 - 3 * h))).
        { apply Rmult_le_pos; [lra|]. left. apply Rinv_0_lt_compat. lra. }
        intros E. apply Rmult_integral in E. destruct E as [E|E]; [|lra].
        apply Rmult_integral in E. destruct E as [E|E]; [lra|tauto].
      * apply lengthOf_ramanujan; [exact Hab|fold h; lra].
Qed.

Lemma calculateTrackLength_lengthOf (t : Track.t) :
  Track.calculateTrackLength t
  = lengthOf (Track.outerRadiusX t - Track.trackWidth t / 2)
             (Track.outerRadiusY t - Track.trackWidth t / 2).
Proof. reflexivity. Qed.

Lemma perspective_calculateTrackLength_lengthOf (t : TrackPerspective.t) :
  TrackPerspective.calculateTrackLength t
  = lengthOf
      (TrackPerspective.outerRadiusX t - TrackPerspective.trackWidth t / 2)
      (TrackPerspective.outerRadiusY t - TrackPerspective.trackWidth t / 2).
Proof. reflexivity. Qed.

Lemma new_track_invariant (cv : Canvas.t) : track_invariant (Track.new cv).
Proof. unfold track_invariant. simpl. repeat split; reflexivity. Qed.

(** [handleResize] of public/track.js assigns the radii and keeps the
    length that the track had. *)
Lemma handleResize_totalLength (t : Track.t) (cv : Canvas.t) :
  Track.totalLength (Track.handleResize t cv) = Track.totalLength t /\
  Track.innerRadiusX (Track.handleResize t cv)
  = Track.outerRadiusX (Track.handleResize t cv)
    - Track.trackWidth (Track.handleResize t cv) /\
  Track.innerRadiusY (Track.handleResize t cv)
  = Track.outerRadiusY (Track.handleResize t cv)
    - Track.trackWidth (Track.handleResize t cv).
Proof. simpl. repeat split; reflexivity. Qed.


Lemma perspective_new_invariant (cv : Canvas.t) :
  perspective_track_invariant (TrackPerspective.new cv).
Proof.
  unfold perspective_track_invariant. simpl. repeat split; reflexivity.
Qed.

(** C5.  A track built for a canvas of 700 by 800 and resized to 1400
    by 1600 (both centre lines are circles, of radius 220 and 500):
    after [handleResize] the stored length is still the 440 pi of the
    first canvas, and the length of the present centre line is
    1000 pi. *)
Theorem handleResize_keeps_the_old_track_length :
  let t0 := Track.new (Canvas.make 700 800) in
  let t1 := Track.handleResize t0 (Canvas.make 1400 1600) in
  Track.totalLength t1 = JS.Fin (440 * PI) /\
  Track.calculateTrackLength t1 = JS.Fin (1000 * PI) /\
  Track.totalLength t1 <> Track.calculateTrackLength t1.
Proof.
  intros t0 t1.
  assert (E0 : Track.totalLength t1 = JS.Fin (440 * PI)).
  { change (Track.totalLength t1)
      with (lengthOf (700 * 0.4 - 120 / 2) (800 * 0.35 - 120 / 2)).
    replace (700 * 0.4 - 120 / 2) with 220 by lra.
    replace (800 * 0.35 - 120 / 2) with 220 by lra.
    rewrite lengthOf_circle by lra. f_equal; lra. }
  assert (E1 : Track.calculateTrackLength t1 = JS.Fin (1000 * PI)).
  { change (Track.calculateTrackLength t1)
      with (lengthOf (1400 * 0.4 - 120 / 2) (1600 * 0.35 - 120 / 2)).
    replace (1400 * 0.4 - 120 / 2) with 500 by lra.
    replace (1600 * 0.35 - 120 / 2) with 500 by lra.
    rewrite lengthOf_circle by lra. f_equal; lra. }
  split; [exact E0|]. split; [exact E1|].
  rewrite E0, E1. intros E. inversion E as [E'].
  pose proof PI_RGT_0. lra.
Qed.

End TrackLength.

(** ** Array.prototype.sort *)

Section SortFacts.

Context {A : Type}.
Variable comparefn : A -> A -> JS.num.

Lemma insert_perm (x : A) (l : list A) :
  Permutation (JSArray.insert comparefn x l) (x :: l).
Proof.
  induction l as [|y l IH]; cbn [JSArray.insert].
  - apply Permutation_refl.
  - destruct (comparefn x y > JS.Fin 0)%js.
    + apply perm_trans with (y :: x :: l).
      * apply perm_skip. exact IH.
      * apply perm_swap.
    + apply Permutation_refl.
Qed.

Lemma sort_perm (l : list A) : Permutation (JSArray.sort comparefn l) l.
Proof.
  induction l as [|x l IH]; cbn [JSArray.sort].
  - apply perm_nil.
  - apply perm_trans with (x :: JSArray.sort comparefn l).
    + apply insert_perm.
    + apply perm_skip. exact IH.
Qed.

End SortFacts.

Section SortByKey.

(** Sorting by a numeric key in descending order, as the comparison
    function [(a, b) => key(b) - key(a)] does. *)
Context {A : Type}.
Variable key : A -> JS.num.

Lemma num_ge_trans (a b c : JS.num) : num_ge a b -> num_ge b c -> num_ge a c.
Proof.
  unfold num_ge, JS.geb, JS.leb.
  destruct a, b, c; simpl; try discriminate; try reflexivity;
    split_comparisons; intros; try discriminate; try reflexivity; lra.
Qed.

Lemma descending_finite (x y : A) (kx ky : R) :
  key x = JS.Fin kx -> key y = JS.Fin ky ->
  (descending key x y > JS.Fin 0)%js = (if Rlt_dec kx ky then true else false).
Proof.
  intros Ex Ey. unfold descending, JS.gtb, JS.sub. rewrite Ex, Ey. simpl.
  destruct (Rlt_dec 0 (ky + - kx)), (Rlt_dec kx ky); try reflexivity; lra.
Qed.

Lemma insert_sorted (x : A) (l : list A) :
  Forall (fun a => JS.is_finite (key a)) (x :: l) ->
  StronglySorted num_ge (map key l) ->
  StronglySorted num_ge (map key (JSArray.insert (descending key) x l)).
Proof.
  induction l as [|y l IH]; intros Hfin Hs; cbn [JSArray.insert map].
  - constructor; [constructor|constructor].
  - inversion Hfin as [|? ? Hx Hyl]; subst.
    inversion Hyl as [|? ? Hy Hl]; subst.
    destruct (key x) as [kx| | |] eqn:Ex; try contradiction.
    destruct (key y) as [ky| | |] eqn:Ey; try contradiction.
    rewrite (descending_finite x y kx ky Ex Ey).
    cbn [map] in Hs. rewrite Ey in Hs.
    inversion Hs as [|? ? Hs' Hall]; subst.
    destruct (Rlt_dec kx ky) as [Hlt|Hge]; cbn [map].
    + rewrite Ey. constructor.
      * apply IH; [constructor; [rewrite Ex; exact I|exact Hl]|exact Hs'].
      * assert (Hx' : num_ge (JS.Fin ky) (key x)).
        { rewrite Ex. unfold num_ge, JS.geb, JS.leb.
          destruct (Rle_dec kx ky); [reflexivity|lra]. }
        apply Forall_forall. intros k Hk.
        apply in_map_iff in Hk. destruct Hk as (a & Ea & Ha). subst k.
        apply (Permutation_in _ (insert_perm (descending key) x l)) in Ha.
        destruct Ha as [Ha|Ha]; [subst a; exact Hx'|].
        rewrite Forall_forall in Hall. apply Hall.
        apply in_map. exact Ha.
    + rewrite Ex, Ey.
      assert (Hxy : num_ge (JS.Fin kx) (JS.Fin ky)).
      { unfold num_ge, JS.geb, JS.leb.
        destruct (Rle_dec ky kx); [reflexivity|lra]. }
      constructor.
      * constructor; assumption.
      * constructor; [exact Hxy|].
        apply Forall_forall. intros k Hk. rewrite Forall_forall in Hall.
        apply num_ge_trans with (JS.Fin ky); [exact Hxy|]. apply Hall. exact Hk.
Qed.

Lemma sort_sorted (l : list A) :
  Forall (fun a => JS.is_finite (key a)) l ->
  StronglySorted num_ge (map key (JSArray.sort (descending key) l)).
Proof.
  induction l as [|x l IH]; intros Hfin; cbn [JSArray.sort map].
  - constructor.
  - inversion Hfin as [|? ? Hx Hl]; subst.
    apply insert_sorted.
    + constructor; [exact Hx|].
      apply Forall_forall. intros a Ha.
      apply (Permutation_in _ (sort_perm (descending key) l)) in Ha.
      rewrite Forall_forall in Hl. apply Hl. exact Ha.
    + apply IH. exact Hl.
Qed.

End SortByKey.

(** ** The placement ranking *)

Section Placements.

Import RaceGame.

Lemma computePlacements_eq (track : Track.t) (allHorses : list PlayerHorse.t) :
  computePlacements track allHorses
  = JSArray.mapi withPlace
      (JSArray.sort (descending entry_progress) (entriesOf track allHorses)).
Proof. reflexivity. Qed.

Lemma mapi_from_length {A B : Type} (f : A -> nat -> B) (l : list A) :
  forall k, List.length (JSArray.mapi_from f k l) = List.length l.
Proof. induction l as [|a l IH]; intros k; simpl; [|rewrite IH]; reflexivity. Qed.

Lemma withPlace_places (l : list Entry) :
  forall k, map place (JSArray.mapi_from withPlace k l)
            = seq (k + 1) (List.length l).
Proof.
  induction l as [|e l IH]; intros k; simpl; [reflexivity|].
  rewrite IH. replace (S k + 1)%nat with (S (k + 1)) by lia. reflexivity.
Qed.

Lemma withPlace_entries (l : list Entry) :
  forall k, map entryOf (JSArray.mapi_from withPlace k l) = l.
Proof.
  induction l as [|e l IH]; intros k; simpl; [reflexivity|].
  rewrite IH. destruct e; reflexivity.
Qed.

Lemma withPlace_progress (l : list Entry) :
  forall k, map progress (JSArray.mapi_from withPlace k l)
            = map entry_progress l.
Proof.
  induction l as [|e l IH]; intros k; simpl; [reflexivity|].
  rewrite IH. reflexivity.
Qed.

Lemma withPlace_later_places (l : list Entry) :
  forall k p, In p (JSArray.mapi_from withPlace k l) -> (k + 1 <= place p)%nat.
Proof.
  induction l as [|e l IH]; intros k p Hin; simpl in Hin; [contradiction|].
  destruct Hin as [E|Hin].
  - subst p. simpl. lia.
  - apply IH in Hin. lia.
Qed.

(** With a finite track length other than zero every progress is a
    finite number. *)
Lemma trackProgress_finite (track : Track.t) (h : PlayerHorse.t) (L : R) :
  Track.totalLength track = JS.Fin L -> L <> 0 ->
  PlayerHorse.trackProgress track h = JS.Fin (PlayerHorse.distance h / L).
Proof.
  intros E HL. unfold PlayerHorse.trackProgress. rewrite E. simpl.
  destruct (Req_dec_T L 0); [contradiction|reflexivity].
Qed.

Lemma entriesOf_finite (track : Track.t) (L : R)
      (allHorses : list PlayerHorse.t) :
  Track.totalLength track = JS.Fin L -> L <> 0 ->
  Forall (fun e => JS.is_finite (entry_progress e))
         (entriesOf track allHorses).
Proof.
  intros E HL. unfold entriesOf, JSArray.mapi. generalize 0%nat.
  induction allHorses as [|h l IH]; intros k; simpl; constructor.
  - simpl. rewrite (trackProgress_finite track h L E HL). exact I.
  - apply IH.
Qed.

(** The properties of a ranking: it holds the entries of all horses,
    each once; the places count from 1 without a gap; and, when the
    track length is a finite number other than zero, the progress
    values descend and the horse in place 1 has the greatest. *)
Lemma computePlacements_ranking (track : Track.t)
      (allHorses : list PlayerHorse.t) :
  let placements := computePlacements track allHorses in
  Permutation (map entryOf placements) (entriesOf track allHorses) /\
  map place placements = seq 1 (List.length allHorses) /\
  (forall L, Track.totalLength track = JS.Fin L -> L <> 0 ->
     StronglySorted num_ge (map progress placements) /\
     forall p, In p placements -> place p = 1%nat ->
     forall q, In q placements -> num_ge (progress p) (progress q)).
Proof.
  intros placements. subst placements. rewrite computePlacements_eq.
  set (sorted := JSArray.sort (descending entry_progress)
                              (entriesOf track allHorses)).
  assert (Hperm : Permutation sorted (entriesOf track allHorses))
    by apply sort_perm.
  unfold JSArray.mapi. split; [|split].
  - rewrite withPlace_entries. exact Hperm.
  - rewrite withPlace_places. simpl. f_equal.
    rewrite (Permutation_length Hperm).
    unfold entriesOf, JSArray.mapi. apply mapi_from_length.
  - intros L E HL.
    assert (Hs : StronglySorted num_ge (map entry_progress sorted)).
    { apply sort_sorted. apply (entriesOf_finite track L allHorses E HL). }
    assert (Hfin : Forall (fun e => JS.is_finite (entry_progress e)) sorted).
    { apply Forall_forall. intros e He.
      apply (Permutation_in _ Hperm) in He.
      pose proof (entriesOf_finite track L allHorses E HL) as F.
      rewrite Forall_forall in F. apply F. exact He. }
    rewrite withPlace_progress. split; [exact Hs|].
    intros p Hp Hplace q Hq.
    destruct sorted as [|e rest]; [contradiction|].
    simpl in Hp. destruct Hp as [Ep|Hp].
    2:{ apply withPlace_later_places in Hp. lia. }
    subst p. simpl.
    simpl in Hs. inversion Hs as [|? ? _ Hall]; subst.
    inversion Hfin as [|? ? He _]; subst.
    simpl in Hq. destruct Hq as [Eq|Hq].
    + subst q. simpl. destruct (entry_progress e); try contradiction.
      unfold num_ge, JS.geb, JS.leb. destruct (Rle_dec r r); [reflexivity|lra].
    + rewrite Forall_forall in Hall. apply Hall.
      rewrite <- (withPlace_progress rest 1). apply in_map. exact Hq.
Qed.

(** In the RACING state [update] advances the player with the input of
    the tick. *)
Lemma update_racing_player (deltaTime : R) (game : RaceGame.t)
      (g : Math.Rng) :
  gameState game = RACING ->
  playerHorse (fst (update deltaTime game g))
  = PlayerHorse.update (track game) deltaTime
      (InputHandler.getInputState (inputHandler game)) (playerHorse game).
Proof.
  intros Hs. unfold update. rewrite Hs.
  destruct (AIManager.update (track game) deltaTime (aiManager game) g)
    as [aiManager' g'].
  cbn [playerHorse resultsScreen_visible aiManager].
  repeat match goal with
         | |- context [if ?c then _ else _] => destruct c
         end; reflexivity.
Qed.

(** The tick of the RACING state in which the player has finished and
    the results are not showing computes the ranking of the player and
    all opponents, shows the results and ends the race. *)
Lemma update_racing_ranks (deltaTime : R) (game : RaceGame.t)
      (g : Math.Rng) :
  gameState game = RACING ->
  resultsScreen_visible game = false ->
  PlayerHorse.finished (playerHorse (fst (update deltaTime game g))) = true ->
  let game' := fst (update deltaTime game g) in
  gameState game' = FINISHED /\
  resultsScreen_visible game' = true /\
  track game' = track game /\
  finalPlacements game'
  = computePlacements (track game')
      (playerHorse game'
       :: map AIHorse.base (AIManager.aiHorses (aiManager game'))).
Proof.
  intros Hs Hv Hf.
  rewrite (update_racing_player deltaTime game g Hs) in Hf.
  unfold update in *. rewrite Hs.
  destruct (AIManager.update (track game) deltaTime (aiManager game) g)
    as [aiManager' g'].
  cbn [playerHorse resultsScreen_visible aiManager track gameState
       finalPlacements].
  unfold PlayerHorse.hasFinishedRace, getInputState in *.
  rewrite Hf, Hv. cbn [negb andb].
  cbn [playerHorse resultsScreen_visible aiManager track gameState
       finalPlacements].
  match goal with
  | |- context [if ?c then _ else _] => destruct c
  end; cbn [fst set_gameState gameState resultsScreen_visible track
            finalPlacements playerHorse aiManager];
    repeat split; reflexivity.
Qed.

End Placements.

Section PlacementClaim.

Import RaceGame.

(** Three entities with progress 1.02, 1.00 and 0.95 take the places
    1, 2 and 3 in that order. *)
Lemma scenario_placements :
  computePlacements scenarioTrack
    [scenarioHorse 1020; scenarioHorse 1000; scenarioHorse 950]
  = [mkPlacement "You" "#FF5733" (JS.Fin 1.02) 1;
     mkPlacement "AI 1" "#FF5733" (JS.Fin 1) 2;
     mkPlacement "AI 2" "#FF5733" (JS.Fin 0.95) 3].
Proof.
  rewrite computePlacements_eq. unfold entriesOf, JSArray.mapi.
  cbn [JSArray.mapi_from].
  rewrite !(trackProgress_finite scenarioTrack _ 1000 eq_refl) by lra.
  cbn [scenarioHorse PlayerHorse.set_distance PlayerHorse.distance
       PlayerHorse.color PlayerHorse.new PlayerHorse.reset
       PlayerHorse.set_speed PlayerHorse.set_stamina PlayerHorse.set_finished
       PlayerHorse.set_position PlayerHorse.set_finishLineY].
  replace (1020 / 1000) with 1.02 by lra.
  replace (1000 / 1000) with 1 by lra.
  replace (950 / 1000) with 0.95 by lra.
  unfold descending.
  cbn [JSArray.sort JSArray.insert entry_progress JS.sub JS.neg JS.add
       JS.gtb JS.ltb].
  match goal with
  | |- context [Rlt_dec ?a ?b] =>
      destruct (Rlt_dec a b) as [H|_]; [exfalso; lra|]
  end.
  cbn [JSArray.insert entry_progress JS.sub JS.neg JS.add JS.gtb JS.ltb].
  match goal with
  | |- context [Rlt_dec ?a ?b] =>
      destruct (Rlt_dec a b) as [H|_]; [exfalso; lra|]
  end.
  reflexivity.
Qed.

End PlacementClaim.

Section PlacementTheorem.

Import RaceGame.

Lemma update_distance (track : Track.t) (deltaTime : R)
      (inputState : InputState) (h : PlayerHorse.t) :
  PlayerHorse.finished h = false ->
  PlayerHorse.distance (PlayerHorse.update track deltaTime inputState h)
  = PlayerHorse.distance h
    + PlayerHorse.speed (PlayerHorse.handleInput deltaTime inputState h)
      * deltaTime.
Proof.
  intros Hf. unfold PlayerHorse.update. rewrite Hf.
  destruct (handleInput_constants deltaTime inputState h)
    as (_ & _ & _ & _ & _ & _ & _ & Hd & _).
  unfold PlayerHorse.checkRaceCompletion, PlayerHorse.updatePosition.
  match goal with |- context [if ?c then _ else _] => destruct c end;
    simpl; rewrite Hd; reflexivity.
Qed.

Lemma new_track_700_800 :
  Track.totalLength (Track.new (Canvas.make 700 800)) = JS.Fin (440 * PI).
Proof.
  change (Track.totalLength (Track.new (Canvas.make 700 800)))
    with (lengthOf (700 * 0.4 - 120 / 2) (800 * 0.35 - 120 / 2)).
  replace (700 * 0.4 - 120 / 2) with 220 by lra.
  replace (800 * 0.35 - 120 / 2) with 220 by lra.
  rewrite lengthOf_circle by lra. f_equal; lra.
Qed.

(** C4.  In the tick of the RACING state in which the player has
    finished and the results are not yet showing, the game ends and the
    ranking that it stores holds the entry of every horse, the player's
    and each opponent's, once; its places are 1, 2, ..., N in this
    order; and, the track length being a finite number other than zero,
    progress descends along the ranking and place 1 has the greatest.
    Three entities with progress 1.02, 1.00 and 0.95 are ranked 1, 2
    and 3 in that order. *)
Theorem placements_rank_all_horses_by_progress
        (deltaTime : R) (game : RaceGame.t) (g : Math.Rng) :
  gameState game = RACING ->
  resultsScreen_visible game = false ->
  PlayerHorse.finished (playerHorse (fst (update deltaTime game g))) = true ->
  let game' := fst (update deltaTime game g) in
  let allHorses :=
    playerHorse game'
    :: map AIHorse.base (AIManager.aiHorses (aiManager game')) in
  let placements := finalPlacements game' in
  (gameState game' = FINISHED /\
   Permutation (map entryOf placements) (entriesOf (track game') allHorses) /\
   map place placements = seq 1 (List.length allHorses) /\
   (forall L, Track.totalLength (track game') = JS.Fin L -> L <> 0 ->
      StronglySorted num_ge (map progress placements) /\
      forall p, In p placements -> place p = 1%nat ->
      forall q, In q placements -> num_ge (progress p) (progress q)))
  /\ computePlacements scenarioTrack
       [scenarioHorse 1020; scenarioHorse 1000; scenarioHorse 950]
     = [mkPlacement "You" "#FF5733" (JS.Fin 1.02) 1;
        mkPlacement "AI 1" "#FF5733" (JS.Fin 1) 2;
        mkPlacement "AI 2" "#FF5733" (JS.Fin 0.95) 3].
Proof.
  intros Hs Hv Hf game' allHorses placements.
  split; [|exact scenario_placements].
  destruct (update_racing_ranks deltaTime game g Hs Hv Hf)
    as (H1 & _ & _ & H4).
  fold game' in H1, H4. split; [exact H1|].
  subst placements. rewrite H4.
  exact (computePlacements_ranking (track game') allHorses).
Qed.

Lemma finishingGame_player_finishes (g : Math.Rng) :
  PlayerHorse.finished (playerHorse (fst (update 0.1 finishingGame g)))
  = true.
Proof.
  rewrite update_racing_player by reflexivity.
  apply update_finished_iff; [reflexivity|].
  cbv zeta.
  change (track finishingGame) with (Track.new (Canvas.make 700 800)).
  rewrite new_track_700_800, update_distance by reflexivity.
  set (h := playerHorse finishingGame).
  assert (Hb : in_bounds
                 (PlayerHorse.handleInput
                    0.1 (getInputState (inputHandler finishingGame)) h)).
  { apply handleInput_in_bounds;
      [lra| |]; unfold rates_nonneg, in_bounds; simpl; lra. }
  destruct Hb as [Hspeed _].
  change (PlayerHorse.distance h) with 1800.
  unfold JS.geb, JS.leb. pose proof PI_4.
  match goal with
  | |- context [Rle_dec ?a ?b] => destruct (Rle_dec a b); [reflexivity|]
  end.
  exfalso. nra.
Qed.

Lemma placements_rank_all_horses_by_progress_witness :
  let g : Math.Rng := fun _ => 0.5 in
  let game' := fst (update 0.1 finishingGame g) in
  (gameState finishingGame = RACING /\
   resultsScreen_visible finishingGame = false /\
   PlayerHorse.finished (playerHorse game') = true) /\
  gameState game' = FINISHED /\
  map place (finalPlacements game')
  = seq 1 (List.length
             (playerHorse game'
              :: map AIHorse.base (AIManager.aiHorses (aiManager game')))).
Proof.
  intros g game'.
  pose proof (finishingGame_player_finishes g) as Hf.
  split; [exact (conj eq_refl (conj eq_refl Hf))|].
  destruct (placements_rank_all_horses_by_progress
              0.1 finishingGame g eq_refl eq_refl Hf)
    as ((H1 & _ & H3 & _) & _).
  exact (conj H1 H3).
Defined.

End PlacementTheorem.

(** ** The track: divisions by the track length *)

Section TrackDivisions.

Lemma trunc_0 : JS.trunc 0 = 0%Z.
Proof.
  unfold JS.trunc. destruct (Rle_dec 0 0) as [_|H]; [|exfalso; lra].
  exact (Int_part_INR 0).
Qed.

Lemma getTrackPosition_finite (track : Track.t) (L distance : R) (lane : Z) :
  Track.totalLength track = JS.Fin L -> L <> 0 ->
  let radiusX := Track.innerRadiusX track + IZR lane * Track.laneSpacing track in
  let radiusY := Track.innerRadiusY track + IZR lane * Track.laneSpacing track in
  Track.getTrackPosition track distance lane
  = Track.mkPosition
      (JS.Fin (Track.centerX track + radiusX * cos (angleAt L distance)))
      (JS.Fin (Track.centerY track + radiusY * sin (angleAt L distance)))
      (JS.Fin (angleAt L distance)).
Proof.
  intros E HL. unfold Track.getTrackPosition, angleAt. rewrite E.
  cbn [JS.rem JS.div].
  destruct (Req_dec_T L 0) as [H|_]; [contradiction|].
  cbn [JS.rem JS.div].
  destruct (Req_dec_T L 0) as [H|_]; [contradiction|].
  reflexivity.
Qed.

Lemma getTrackPosition_zero_length (track : Track.t) (distance : R)
      (lane : Z) :
  Track.totalLength track = JS.Fin 0 ->
  Track.getTrackPosition track distance lane
  = Track.mkPosition JS.NaN JS.NaN JS.NaN.
Proof.
  intros E. unfold Track.getTrackPosition. rewrite E.
  cbn [JS.rem JS.div].
  destruct (Req_dec_T 0 0) as [_|H]; [|exfalso; apply H; reflexivity].
  reflexivity.
Qed.

Lemma trackProgress_zero_length (track : Track.t) (h : PlayerHorse.t) :
  Track.totalLength track = JS.Fin 0 ->
  (0 < PlayerHorse.distance h ->
   PlayerHorse.trackProgress track h = JS.PosInf) /\
  (PlayerHorse.distance h = 0 ->
   PlayerHorse.trackProgress track h = JS.NaN).
Proof.
  intros E. unfold PlayerHorse.trackProgress. rewrite E. cbn [JS.div].
  destruct (Req_dec_T 0 0) as [_|H]; [|exfalso; apply H; reflexivity].
  split; intros Hd.
  - destruct (Req_dec_T (PlayerHorse.distance h) 0); [exfalso; lra|].
    unfold JS.inf_like.
    destruct (Rle_dec 0 (PlayerHorse.distance h)); [reflexivity|exfalso; lra].
  - destruct (Req_dec_T (PlayerHorse.distance h) 0);
      [reflexivity|contradiction].
Qed.

(** C6, as the specification states it, fails on a track of length
    zero: the progress of a horse that has covered 5 is plus infinity,
    which is not the number 0 and not finite, and every coordinate of
    its position, the angle among them, is NaN. *)
Lemma zero_length_track_gives_non_finite_progress :
  let h := PlayerHorse.set_distance 5 (PlayerHorse.new zeroLengthTrack 3) in
  PlayerHorse.trackProgress zeroLengthTrack h = JS.PosInf /\
  PlayerHorse.trackProgress zeroLengthTrack h <> JS.Fin 0 /\
  ~ JS.is_finite (PlayerHorse.trackProgress zeroLengthTrack h) /\
  Track.angle (Track.getTrackPosition zeroLengthTrack 5 3) = JS.NaN.
Proof.
  intros h.
  destruct (trackProgress_zero_length zeroLengthTrack h eq_refl) as [Hp _].
  rewrite Hp by (simpl; lra).
  repeat split.
  - discriminate.
  - simpl. tauto.
  - rewrite getTrackPosition_zero_length by reflexivity. reflexivity.
Qed.

(** A canvas for which the centre-line radii cancel (300 by 0: the
    radii are 60 and -60) leaves no number at all as the length of the
    track, and then none as the progress of a horse. *)
Lemma degenerate_canvas_gives_NaN (h : PlayerHorse.t) :
  let track := Track.new (Canvas.make 300 0) in
  Track.totalLength track = JS.NaN /\
  PlayerHorse.trackProgress track h = JS.NaN.
Proof.
  assert (E : Track.totalLength (Track.new (Canvas.make 300 0)) = JS.NaN).
  { change (Track.totalLength (Track.new (Canvas.make 300 0)))
      with (lengthOf (300 * 0.4 - 120 / 2) (0 * 0.35 - 120 / 2)).
    replace (300 * 0.4 - 120 / 2) with 60 by lra.
    replace (0 * 0.35 - 120 / 2) with (-60) by lra.
    unfold lengthOf. cbn [JS.div].
    destruct (Req_dec_T ((60 + -60) ^ 2) 0) as [_|H];
      [|exfalso; apply H; simpl; lra].
    destruct (Req_dec_T ((60 - -60) ^ 2) 0) as [H|_];
      [exfalso; simpl in H; lra|].
    unfold JS.inf_like.
    destruct (Rle_dec 0 ((60 - -60) ^ 2)) as [_|H];
      [|exfalso; apply H; simpl; lra].
    cbn [JS.mul JS.sub JS.neg JS.add].
    destruct (Req_dec_T 3 0) as [H|_]; [exfalso; lra|].
    unfold JS.inf_like.
    destruct (Rle_dec 0 3) as [_|H]; [|exfalso; lra].
    reflexivity. }
  split; [exact E|].
  unfold PlayerHorse.trackProgress. rewrite E. reflexivity.
Qed.

(** C6, amended.  The two divisions by the track length are not
    guarded.  On a track whose length is a finite number other than
    zero, the progress is the quotient of distance and length and the
    angle of the position is a finite number, for every distance; on a
    track of length zero the progress is plus infinity for a positive
    distance and NaN for the distance 0, and the angle is NaN. *)
Theorem divisions_by_track_length_are_unguarded
        (track : Track.t) (L distance : R) (lane : Z) (h : PlayerHorse.t) :
  Track.totalLength track = JS.Fin L ->
  (L <> 0 ->
   PlayerHorse.trackProgress track h = JS.Fin (PlayerHorse.distance h / L) /\
   Track.angle (Track.getTrackPosition track distance lane)
   = JS.Fin (angleAt L distance)) /\
  (L = 0 ->
   (0 < PlayerHorse.distance h ->
    PlayerHorse.trackProgress track h = JS.PosInf) /\
   (PlayerHorse.distance h = 0 ->
    PlayerHorse.trackProgress track h = JS.NaN) /\
   Track.angle (Track.getTrackPosition track distance lane) = JS.NaN).
Proof.
  intros E. split.
  - intros HL. split.
    + apply trackProgress_finite; assumption.
    + rewrite (getTrackPosition_finite track L distance lane E HL).
      reflexivity.
  - intros HL. subst L.
    destruct (trackProgress_zero_length track h E) as [H1 H2].
    split; [exact H1|]. split; [exact H2|].
    rewrite (getTrackPosition_zero_length track distance lane E).
    reflexivity.
Qed.

Lemma divisions_by_track_length_are_unguarded_witness :
  let h := scenarioHorse 1020 in
  Track.totalLength scenarioTrack = JS.Fin 1000 /\
  PlayerHorse.trackProgress scenarioTrack h = JS.Fin (1020 / 1000).
Proof.
  intros h. split; [reflexivity|].
  destruct (divisions_by_track_length_are_unguarded
              scenarioTrack 1000 1020 3 h eq_refl) as [H _].
  apply H. lra.
Defined.

End TrackDivisions.

(** ** The track: heading *)

Section Heading.








(** The version with the flattened oval returns the same heading. *)
Lemma perspective_heading (t : TrackPerspective.t) (distance : R)
      (lane lane' : Z) :
  Track.angle (TrackPerspective.getTrackPosition t distance lane)
  = Track.angle (TrackPerspective.getTrackPosition t distance lane') /\
  Track.angle (TrackPerspective.getTrackPosition t distance lane)
  = ((JS.Fin distance mod TrackPerspective.totalLength t)
     / TrackPerspective.totalLength t * JS.Fin 2 * JS.Fin PI
     + JS.Fin (PI / 2))%js.
Proof. split; reflexivity. Qed.

End Heading.

(** ** Lanes *)

Section Lanes.

Import RaceGame.

Lemma player_reset_lane (track : Track.t) (h : PlayerHorse.t) :
  PlayerHorse.laneNumber (PlayerHorse.reset track h)
  = PlayerHorse.laneNumber h.
Proof. reflexivity. Qed.

Lemma new_player_lane (track : Track.t) (lane : Z) :
  PlayerHorse.laneNumber (PlayerHorse.new track lane) = lane.
Proof. reflexivity. Qed.

Lemma new_ai_lane (track : Track.t) (lane : Z) (color : string)
      (difficulty : R) (g : Math.Rng) :
  laneOf (fst (AIHorse.new track lane color difficulty g)) = lane.
Proof. reflexivity. Qed.

Lemma ai_reset_lane (track : Track.t) (a : AIHorse.t) :
  laneOf (AIHorse.reset track a) = laneOf a.
Proof. reflexivity. Qed.

(** The lanes of the five opponents of a new game. *)
Lemma new_game_lanes (cv : Canvas.t) (g : Math.Rng) :
  let game := fst (RaceGame.new cv g) in
  Track.laneCount (track game) = 6%Z /\
  PlayerHorse.laneNumber (playerHorse game) = 3%Z /\
  map laneOf (AIManager.aiHorses (aiManager game)) = [1; 2; 4; 5; 6]%Z.
Proof. repeat split; reflexivity. Qed.

(** C7, as the specification states it, fails: the constructor takes
    the lane -1 and the racer carries it, and the fifth opponent of a
    new game is in lane 6 of a track of 6 lanes, numbered from 0. *)
Lemma constructed_racers_with_invalid_lanes :
  let g : Math.Rng := fun _ => 0.5 in
  let game := fst (RaceGame.new (Canvas.make 1000 800) g) in
  (PlayerHorse.laneNumber (PlayerHorse.new (track game) (-1)) = (-1)%Z /\
   ~ valid_lane (track game) (-1)) /\
  (map laneOf (AIManager.aiHorses (aiManager game)) = [1; 2; 4; 5; 6]%Z /\
   ~ valid_lane (track game) 6).
Proof.
  intros g game. unfold valid_lane.
  destruct (new_game_lanes (Canvas.make 1000 800) g) as (Hc & _ & Hl).
  fold game in Hc, Hl. rewrite Hc.
  repeat split; try assumption; try reflexivity; lia.
Qed.

(** C7, amended.  The constructor of a racer checks nothing: the racer
    carries the lane that it was constructed with, whatever it is.  In
    a new game the track has 6 lanes, the player is in lane 3 and the
    first four opponents are in the lanes 1, 2, 4 and 5, all of them
    lanes of the track. *)
Theorem racers_carry_the_lane_they_are_given
        (track : Track.t) (lane : Z) (color : string) (difficulty : R)
        (cv : Canvas.t) (g : Math.Rng) :
  PlayerHorse.laneNumber (PlayerHorse.new track lane) = lane /\
  laneOf (fst (AIHorse.new track lane color difficulty g)) = lane /\
  let game := fst (RaceGame.new cv g) in
  valid_lane (RaceGame.track game) (PlayerHorse.laneNumber (playerHorse game)) /\
  PlayerHorse.laneNumber (playerHorse game) = 3%Z /\
  map laneOf (firstn 4 (AIManager.aiHorses (aiManager game)))
  = [1; 2; 4; 5]%Z /\
  Forall (fun a => valid_lane (RaceGame.track game) (laneOf a))
         (firstn 4 (AIManager.aiHorses (aiManager game))).
Proof.
  split; [reflexivity|]. split; [reflexivity|].
  intros game. unfold valid_lane.
  split; [simpl; lia|]. split; [reflexivity|]. split; [reflexivity|].
  change (Track.laneCount (RaceGame.track game)) with 6%Z.
  repeat (apply Forall_cons; [unfold laneOf; simpl; lia|]).
  apply Forall_nil.
Qed.

End Lanes.

(** ** Restart *)

Section Restart.

Import RaceGame.

Lemma player_reset_restarts (track : Track.t) (h : PlayerHorse.t) :
  racer_restarted h (PlayerHorse.reset track h).
Proof. unfold racer_restarted. simpl. repeat split; reflexivity. Qed.

Lemma ai_reset_restarts (track : Track.t) (a : AIHorse.t) :
  opponent_restarted a (AIHorse.reset track a).
Proof.
  unfold opponent_restarted, racer_restarted, profileOf. simpl.
  repeat split; reflexivity.
Qed.

Lemma manager_reset_restarts (track : Track.t) (m : AIManager.t) :
  Forall2 opponent_restarted (AIManager.aiHorses m)
          (AIManager.aiHorses (AIManager.reset track m)).
Proof.
  unfold AIManager.reset. cbn [AIManager.aiHorses].
  induction (AIManager.aiHorses m) as [|a l IH]; simpl; constructor.
  - apply ai_reset_restarts.
  - exact IH.
Qed.

Lemma game_reset_restarts (game : RaceGame.t) :
  finalPlacements (reset game) = [] /\
  resultsScreen_visible (reset game) = false /\
  countdownTimer (reset game) = countdownTime game /\
  racer_restarted (playerHorse game) (playerHorse (reset game)) /\
  Forall2 opponent_restarted (AIManager.aiHorses (aiManager game))
          (AIManager.aiHorses (aiManager (reset game))).
Proof.
  unfold reset. cbn [finalPlacements resultsScreen_visible countdownTimer
                     playerHorse aiManager].
  repeat split; try reflexivity.
  apply manager_reset_restarts.
Qed.

(** C9.  In the FINISHED state, with the results showing, a forward
    intent restarts the race: the game is in COUNTDOWN with the full
    countdown, the placement list is empty, the player and every
    opponent have covered nothing, stand still, have full stamina and
    have not finished, no opponent has a boost running or a strategic
    boost used, every opponent has the profile that it had, and no
    random number has been drawn. *)
Theorem restart_resets_the_race_and_keeps_profiles
        (deltaTime : R) (game : RaceGame.t) (g : Math.Rng) :
  gameState game = FINISHED ->
  InputHandler.forward (InputHandler.getInputState (inputHandler game))
  = true ->
  resultsScreen_visible game = true ->
  let game' := fst (update deltaTime game g) in
  gameState game' = COUNTDOWN /\
  countdownTimer game' = countdownTime game /\
  finalPlacements game' = [] /\
  racer_restarted (playerHorse game) (playerHorse game') /\
  Forall2 opponent_restarted (AIManager.aiHorses (aiManager game))
          (AIManager.aiHorses (aiManager game')) /\
  snd (update deltaTime game g) = g.
Proof.
  intros Hs Hf Hv game'. subst game'. unfold update.
  rewrite Hs, Hf, Hv. cbn [andb fst snd].
  destruct (game_reset_restarts game) as (H1 & _ & H3 & H4 & H5).
  unfold set_gameState.
  cbn [gameState countdownTimer finalPlacements playerHorse aiManager].
  repeat split; try assumption; try reflexivity; apply H4.
Qed.

Lemma restart_resets_the_race_and_keeps_profiles_witness :
  let g : Math.Rng := fun _ => 0.5 in
  let game' := fst (update 0.1 finishedGame g) in
  (gameState finishedGame = FINISHED /\
   InputHandler.forward
     (InputHandler.getInputState (inputHandler finishedGame)) = true /\
   resultsScreen_visible finishedGame = true) /\
  gameState game' = COUNTDOWN /\
  finalPlacements game' = [] /\
  PlayerHorse.distance (playerHorse game') = 0 /\
  PlayerHorse.stamina (playerHorse game') = 100.
Proof.
  intros g game'.
  split; [exact (conj eq_refl (conj eq_refl eq_refl))|].
  destruct (restart_resets_the_race_and_keeps_profiles
              0.1 finishedGame g eq_refl eq_refl eq_refl)
    as (H1 & _ & H3 & (H4 & _ & H5 & _) & _).
  exact (conj H1 (conj H3 (conj H4 H5))).
Defined.

End Restart.

(* ================================================================== *)
(** * Further properties of the motion model *)
(* ================================================================== *)

(** Case analysis on the comparisons of reals, those first whose
    operands hold no comparison themselves. *)
Ltac no_comparison t :=
  lazymatch t with
  | context [Rlt_dec _ _] => fail
  | context [Rle_dec _ _] => fail
  | context [Req_dec_T _ _] => fail
  | _ => idtac
  end.

Ltac split_innermost :=
  unfold Rgtb, Rltb, Rmax, Rmin in *;
  repeat match goal with
         | |- context [Rlt_dec ?a ?b] =>
             no_comparison a; no_comparison b;
             destruct (Rlt_dec a b); simpl in *
         | |- context [Rle_dec ?a ?b] =>
             no_comparison a; no_comparison b;
             destruct (Rle_dec a b); simpl in *
         | |- context [Req_dec_T ?a ?b] =>
             no_comparison a; no_comparison b;
             destruct (Req_dec_T a b); simpl in *
         end.

Section MotionFurther.

Import PlayerHorse.

Lemma handleInput_fixed_fields (deltaTime : R) (inputState : InputState)
      (h : PlayerHorse.t) :
  let h' := handleInput deltaTime inputState h in
  x h' = x h /\ y h' = y h /\ angle h' = angle h /\
  finishLineY h' = finishLineY h /\ width h' = width h /\
  height h' = height h /\ color h' = color h.
Proof.
  destruct h; destruct inputState as [f b]; unfold handleInput; simpl.
  destruct f, b; simpl; split_comparisons; repeat split; reflexivity.
Qed.

(** X3.  A step with the forward intent leaves the speed at the smaller
    of the speed limit of the step and the speed plus the acceleration
    of the tick, however long the tick; and no step of a racer that is
    at or under its boost limit takes the speed over that limit. *)
Theorem speed_never_overshoots (deltaTime : R) (inputState : InputState)
        (h : PlayerHorse.t) :
  0 <= deltaTime -> 0 <= deceleration h ->
  0 <= maxSpeed h <= boostMaxSpeed h -> speed h <= boostMaxSpeed h ->
  (forward inputState = true ->
   speed (handleInput deltaTime inputState h)
   = Rmin (currentMaxSpeed inputState h)
          (speed h + acceleration h * deltaTime)) /\
  speed (handleInput deltaTime inputState h) <= boostMaxSpeed h.
Proof.
  intros Hdt Hdec [Hm0 Hmb] Hs.
  pose proof (Rmult_le_pos _ _ Hdec Hdt) as Pd.
  destruct h; destruct inputState as [f b]; simpl in *.
  unfold handleInput, currentMaxSpeed; simpl.
  split.
  - intros ->. destruct b; simpl; split_innermost; lra.
  - destruct f, b; simpl; split_innermost; lra.
Qed.

Lemma speed_never_overshoots_witness :
  let h := set_speed 690 (PlayerHorse.new scenarioTrack 3) in
  let inputState := mkInputState true true in
  (0 <= 5 /\ 0 <= deceleration h /\ 0 <= maxSpeed h <= boostMaxSpeed h /\
   speed h <= boostMaxSpeed h) /\
  speed (handleInput 5 inputState h) <= 700.
Proof.
  intros h inputState.
  assert (H1 : 0 <= 5) by lra.
  assert (H2 : 0 <= deceleration h) by (simpl; lra).
  assert (H3 : 0 <= maxSpeed h <= boostMaxSpeed h) by (simpl; lra).
  assert (H4 : speed h <= boostMaxSpeed h) by (simpl; lra).
  split; [exact (conj H1 (conj H2 (conj H3 H4)))|].
  exact (proj2 (speed_never_overshoots 5 inputState h H1 H2 H3 H4)).
Defined.

Lemma coast_deceleration (n : nat) (deltaTime : R) (h : PlayerHorse.t) :
  deceleration (coast n deltaTime h) = deceleration h.
Proof.
  induction n as [|n IH]; [reflexivity|].
  unfold coast in *. simpl.
  destruct (handleInput_constants
              deltaTime (mkInputState false false)
              (Nat.iter n (handleInput deltaTime (mkInputState false false)) h))
    as (_ & _ & _ & E & _).
  rewrite E. exact IH.
Qed.

(** X4.  With no key held the speed falls by the deceleration of each
    tick and stops at 0: after [n] ticks it is the greater of 0 and the
    speed less [n] decelerations, so it is exactly 0 from the tick on
    at which the decelerations add up to the speed. *)
Theorem coasting_stops_at_zero (n : nat) (deltaTime : R)
        (h : PlayerHorse.t) :
  0 <= deltaTime -> 0 <= deceleration h -> 0 <= speed h ->
  speed (coast n deltaTime h)
  = Rmax 0 (speed h - INR n * (deceleration h * deltaTime)) /\
  (speed h <= INR n * (deceleration h * deltaTime) ->
   speed (coast n deltaTime h) = 0).
Proof.
  intros Hdt Hdec Hs.
  pose proof (Rmult_le_pos _ _ Hdec Hdt) as Pd.
  assert (E : speed (coast n deltaTime h)
              = Rmax 0 (speed h - INR n * (deceleration h * deltaTime))).
  { induction n as [|n IH].
    - simpl. rewrite Rmult_0_l, Rminus_0_r. rewrite Rmax_right; lra.
    - rewrite S_INR.
      change (coast (S n) deltaTime h)
        with (handleInput deltaTime (mkInputState false false)
                          (coast n deltaTime h)).
      pose proof (coast_deceleration n deltaTime h) as Ed.
      pose proof (pos_INR n) as Hn.
      assert (Hc : 0 <= INR n * (deceleration h * deltaTime))
        by (apply Rmult_le_pos; assumption).
      set (c := deceleration h * deltaTime) in *.
      destruct (coast n deltaTime h) eqn:Eh. simpl in IH, Ed.
      unfold handleInput; simpl. rewrite Ed. fold c. rewrite IH.
      split_innermost; lra. }
  split; [exact E|].
  intros Hle. rewrite E. rewrite Rmax_left; lra.
Qed.

Lemma coasting_stops_at_zero_witness :
  let h := set_speed 500 (PlayerHorse.new scenarioTrack 3) in
  (0 <= 0.1 /\ 0 <= deceleration h /\ 0 <= speed h) /\
  speed (coast 17 0.1 h) = 0.
Proof.
  intros h.
  assert (H1 : 0 <= 0.1) by lra.
  assert (H2 : 0 <= deceleration h) by (simpl; lra).
  assert (H3 : 0 <= speed h) by (simpl; lra).
  split; [exact (conj H1 (conj H2 H3))|].
  apply (proj2 (coasting_stops_at_zero 17 0.1 h H1 H2 H3)).
  simpl. lra.
Defined.

(** X5.  While the boost intent is held stamina never grows: it falls
    by the drain of the tick, not under 0, when the racer goes forward
    with stamina left, and keeps its value otherwise.  A racer whose
    stamina is used up therefore stays at 0 for as long as the boost
    intent is held, and its speed limit is the normal one. *)
Theorem boost_intent_blocks_recovery (deltaTime : R) (fwd : bool)
        (h : PlayerHorse.t) :
  let h' := handleInput deltaTime (mkInputState fwd true) h in
  (fwd = true -> 0 < stamina h ->
   stamina h' = Rmax 0 (stamina h - staminaDrainRate h * deltaTime)) /\
  (fwd = false \/ stamina h <= 0 -> stamina h' = stamina h) /\
  (stamina h <= 0 ->
   currentMaxSpeed (mkInputState fwd true) h = maxSpeed h).
Proof.
  destruct h. unfold handleInput, currentMaxSpeed. simpl.
  repeat split.
  - intros -> Hs. simpl. split_innermost; lra.
  - intros [->|Hs]; simpl; [split_innermost; reflexivity|].
    destruct fwd; simpl; split_innermost; lra.
  - intros Hs. split_innermost; [lra|reflexivity].
Qed.

(** X6.  Over a run of ticks of non-negative length the distance of a
    racer never falls. *)
Theorem distance_never_decreases (track : Track.t)
        (ticks : list (R * InputState)) (h : PlayerHorse.t) :
  Forall (fun tick => 0 <= fst tick) ticks ->
  rates_nonneg h -> in_bounds h ->
  distance h <= distance (steps track ticks h).
Proof.
  revert h. induction ticks as [|[deltaTime inputState] ticks IH];
    intros h Hd Hr Hb.
  - simpl. lra.
  - inversion Hd as [|? ? Hdt Hd']; subst. simpl in Hdt. simpl.
    apply Rle_trans
      with (distance (update track deltaTime inputState h)).
    + destruct (finished h) eqn:Hf.
      * rewrite update_finished_noop by exact Hf. lra.
      * rewrite update_distance by exact Hf.
        destruct (handleInput_in_bounds deltaTime inputState h Hdt Hr Hb)
          as [Hs _].
        pose proof (Rmult_le_pos _ _ Hs Hdt). lra.
    + apply IH; [exact Hd'| |].
      * apply update_rates_nonneg; exact Hr.
      * apply update_in_bounds; assumption.
Qed.

Lemma distance_never_decreases_witness :
  let h := PlayerHorse.new scenarioTrack 3 in
  let ticks := [(0.1, mkInputState true false); (0.1, mkInputState false true)] in
  (Forall (fun tick => 0 <= fst tick) ticks /\ rates_nonneg h /\ in_bounds h)
  /\ distance h <= distance (steps scenarioTrack ticks h).
Proof.
  intros h ticks.
  assert (H1 : Forall (fun tick : R * InputState => 0 <= fst tick) ticks)
    by (repeat constructor; simpl; lra).
  destruct (new_player_rates_nonneg scenarioTrack 3) as [H2 H3].
  split; [exact (conj H1 (conj H2 H3))|].
  exact (distance_never_decreases scenarioTrack ticks h H1 H2 H3).
Defined.

End MotionFurther.

Section PositionAndReset.

Import PlayerHorse.

Lemma set_position_synced (track : Track.t) (h : PlayerHorse.t) :
  synced track
    (set_position
       (Track.getTrackPosition track (distance h) (laneNumber h)) h).
Proof.
  unfold synced.
  cbn [set_position x y angle distance laneNumber].
  destruct (Track.getTrackPosition track (distance h) (laneNumber h)).
  reflexivity.
Qed.

Lemma set_finished_synced (track : Track.t) (v : bool) (h : PlayerHorse.t) :
  synced track h -> synced track (set_finished v h).
Proof. unfold synced. cbn [set_finished x y angle distance laneNumber]. tauto. Qed.

Lemma update_unfinished_synced (track : Track.t) (deltaTime : R)
      (inputState : InputState) (h : PlayerHorse.t) :
  finished h = false -> synced track (update track deltaTime inputState h).
Proof.
  intros Hf. unfold update. rewrite Hf.
  unfold checkRaceCompletion, updatePosition.
  match goal with |- context [if ?c then _ else _] => destruct c end.
  - apply set_finished_synced. apply set_position_synced.
  - apply set_position_synced.
Qed.

(** X7.  The position of a racer follows its distance: after a step of
    a racer that has not finished, after a reset and after a change of
    lane of a racer that was in step, the coordinates and the heading
    stored in the racer are those that the track gives for its distance
    and lane; a step of a finished racer keeps what it had. *)
Theorem position_follows_distance (track : Track.t) (deltaTime : R)
        (inputState : InputState) (newLane : Z) (h : PlayerHorse.t) :
  (finished h = false \/ synced track h ->
   synced track (update track deltaTime inputState h)) /\
  synced track (reset track h) /\
  (synced track h -> synced track (changeLane track newLane h) /\
                     laneNumber (changeLane track newLane h) = newLane /\
                     distance (changeLane track newLane h) = distance h).
Proof.
  split; [|split].
  - intros [Hf|Hs].
    + apply update_unfinished_synced. exact Hf.
    + destruct (finished h) eqn:Hf.
      * rewrite update_finished_noop by exact Hf. exact Hs.
      * apply update_unfinished_synced. exact Hf.
  - unfold reset, synced.
    cbn [set_finishLineY set_position set_finished set_stamina set_speed
         set_distance x y angle distance laneNumber].
    destruct (Track.getTrackPosition track 0 (laneNumber h)). reflexivity.
  - intros Hs. split; [|split; reflexivity].
    unfold synced, changeLane in *.
    cbn [set_xy set_laneNumber x y angle distance laneNumber].
    injection Hs as _ _ Ha. rewrite Ha.
    unfold Track.getTrackPosition. reflexivity.
Qed.

Lemma update_constants_of (track : Track.t) (deltaTime : R)
      (inputState : InputState) (h : PlayerHorse.t) :
  constants_of (update track deltaTime inputState h) = constants_of h.
Proof.
  unfold update. destruct (finished h); [reflexivity|].
  destruct (handleInput_constants deltaTime inputState h)
    as (H1 & H2 & H3 & H4 & H5 & H6 & H7 & _ & _ & H8).
  destruct (handleInput_fixed_fields deltaTime inputState h)
    as (_ & _ & _ & _ & H9 & H10 & H11).
  unfold checkRaceCompletion, updatePosition, constants_of.
  match goal with |- context [if ?c then _ else _] => destruct c end;
    simpl; rewrite H1, H2, H3, H4, H5, H6, H7, H8, H9, H10, H11;
    reflexivity.
Qed.

Lemma steps_constants_of (track : Track.t) (ticks : list (R * InputState)) :
  forall h, constants_of (steps track ticks h) = constants_of h.
Proof.
  induction ticks as [|[deltaTime inputState] ticks IH]; intros h; simpl.
  - reflexivity.
  - rewrite IH. apply update_constants_of.
Qed.

Lemma reset_by_constants (track : Track.t) (h h' : PlayerHorse.t) :
  constants_of h = constants_of h' -> reset track h = reset track h'.
Proof.
  destruct h, h'. unfold constants_of. simpl. intros E.
  injection E as -> -> -> -> -> -> -> -> -> -> ->. reflexivity.
Qed.

(** X8.  A reset takes a racer back to the state in which it was
    constructed, whatever run of steps it has been through. *)
Theorem reset_restores_the_new_racer (track : Track.t) (lane : Z)
        (ticks : list (R * InputState)) :
  reset track (steps track ticks (PlayerHorse.new track lane))
  = PlayerHorse.new track lane.
Proof.
  rewrite (reset_by_constants
             track _ (PlayerHorse.new track lane)
             (steps_constants_of track ticks (PlayerHorse.new track lane))).
  reflexivity.
Qed.

End PositionAndReset.

(* ================================================================== *)
(** * Properties of the opponents' decision heuristic *)
(* ================================================================== *)

Section Policy.

Import AIHorse.

(** Every branch of the decision, taken apart. *)
Ltac policy_cases :=
  repeat match goal with
         | |- context [Rle_dec ?x ?y] => destruct (Rle_dec x y); simpl
         | |- context [match ?c with Some _ => _ | None => _ end] =>
             destruct c eqn:?; simpl
         | |- context [if ?c then _ else _] => destruct c eqn:?; simpl
         end.

(** X9.  The decision always asks for forward motion; it leaves the
    racer state and the profile of the opponent as they were; and it
    takes at most one draw from the random source. *)
Theorem policy_always_goes_forward (track : Track.t) (deltaTime : R)
        (a : AIHorse.t) (g : Math.Rng) :
  let r := determineInputState track deltaTime a g in
  forward (fst (fst r)) = true /\
  base (snd (fst r)) = base a /\
  profileOf (snd (fst r)) = profileOf a /\
  (snd r = g \/ snd r = snd (Math.random g)).
Proof.
  unfold determineInputState, profileOf.
  destruct (isBoosting a) eqn:Hb; simpl; policy_cases;
    repeat split; try reflexivity; auto.
Qed.

(** X10.  An opponent that is not boosting, whose stamina is under its
    conserve threshold and whose progress is not over 0.85 does not
    boost: the decision is forward without boost, the opponent is as it
    was and no draw is taken. *)
Theorem policy_conserves_stamina (track : Track.t) (deltaTime : R)
        (a : AIHorse.t) (g : Math.Rng) :
  isBoosting a = false ->
  PlayerHorse.stamina (base a) < conserveStaminaThreshold a ->
  (trackProgress track a > JS.Fin 0.85)%js = false ->
  determineInputState track deltaTime a g
  = (mkInputState true false, a, g).
Proof.
  intros Hb Hs Hn. unfold determineInputState. rewrite Hb, Hn.
  unfold Rltb.
  destruct (Rlt_dec (PlayerHorse.stamina (base a))
                    (conserveStaminaThreshold a)) as [_|H];
    [reflexivity|contradiction].
Qed.

Lemma scenario_progress (a : AIHorse.t) :
  trackProgress scenarioTrack a
  = JS.Fin (PlayerHorse.distance (base a) / 1000).
Proof.
  unfold trackProgress.
  apply (trackProgress_finite scenarioTrack (base a) 1000 eq_refl). lra.
Qed.

Lemma policy_conserves_stamina_witness :
  let a := set_base (PlayerHorse.set_stamina 20 (base scenarioOpponent))
                    scenarioOpponent in
  let g : Math.Rng := fun _ => 0 in
  (isBoosting a = false /\
   PlayerHorse.stamina (base a) < conserveStaminaThreshold a /\
   (trackProgress scenarioTrack a > JS.Fin 0.85)%js = false) /\
  determineInputState scenarioTrack 0.1 a g = (mkInputState true false, a, g).
Proof.
  intros a g.
  assert (H1 : isBoosting a = false) by reflexivity.
  assert (H2 : PlayerHorse.stamina (base a) < conserveStaminaThreshold a)
    by (simpl; lra).
  assert (H3 : (trackProgress scenarioTrack a > JS.Fin 0.85)%js = false).
  { rewrite scenario_progress. simpl.
    destruct (Rlt_dec 0.85 (0 / 1000)); [exfalso; lra|reflexivity]. }
  split; [exact (conj H1 (conj H2 H3))|].
  exact (policy_conserves_stamina scenarioTrack 0.1 a g H1 H2 H3).
Defined.

(** X11.  In the final stretch, progress over 0.85, an opponent with
    stamina over 20 boosts, whatever its timers, its threshold and the
    draw. *)
Theorem policy_boosts_in_final_stretch (track : Track.t) (deltaTime : R)
        (a : AIHorse.t) (g : Math.Rng) :
  (trackProgress track a > JS.Fin 0.85)%js = true ->
  20 < PlayerHorse.stamina (base a) ->
  boost (fst (fst (determineInputState track deltaTime a g))) = true.
Proof.
  intros Hn Hs.
  unfold trackProgress in Hn.
  unfold determineInputState, trackProgress, Math.random.
  destruct (isBoosting a) eqn:Hb;
    [destruct
       (Rle_dec (boostTimer (set_boostTimer (boostTimer a - deltaTime) a)) 0)
    |];
    cbn [base set_boostTimer set_isBoosting set_usedStrategicBoosts
         isBoosting];
    rewrite ?Hn; cbn [negb andb]; rewrite ?andb_false_r;
    unfold Rgtb, Rltb;
    repeat (match goal with
            | |- context [match ?c with Some _ => _ | None => _ end] =>
                destruct c
            | |- context [Rlt_dec ?x ?y] => destruct (Rlt_dec x y)
            | |- context [if ?c then _ else _] => destruct c
            end;
            cbn [base set_boostTimer set_isBoosting set_usedStrategicBoosts
                 isBoosting fst snd boost negb andb]);
    first [reflexivity | contradiction].
Qed.

Lemma policy_boosts_in_final_stretch_witness :
  let a := set_base (PlayerHorse.set_stamina 25
                       (PlayerHorse.set_distance 900 (base scenarioOpponent)))
                    scenarioOpponent in
  let g : Math.Rng := fun _ => 0.9 in
  ((trackProgress scenarioTrack a > JS.Fin 0.85)%js = true /\
   20 < PlayerHorse.stamina (base a)) /\
  boost (fst (fst (determineInputState scenarioTrack 0.1 a g))) = true.
Proof.
  intros a g.
  assert (H1 : (trackProgress scenarioTrack a > JS.Fin 0.85)%js = true).
  { rewrite scenario_progress. simpl.
    destruct (Rlt_dec 0.85 (900 / 1000)); [reflexivity|exfalso; lra]. }
  assert (H2 : 20 < PlayerHorse.stamina (base a)) by (simpl; lra).
  split; [exact (conj H1 H2)|].
  exact (policy_boosts_in_final_stretch scenarioTrack 0.1 a g H1 H2).
Defined.

(** X12.  A boost that is under way goes on while its timer has not run
    out: the decision boosts, whatever the stamina and the conserve
    threshold, the opponent is still boosting, no draw is taken, and
    the timer is the old one less the tick, or the full boost duration
    when a strategic boost starts in this tick. *)
Theorem policy_continues_running_boost (track : Track.t) (deltaTime : R)
        (a : AIHorse.t) (g : Math.Rng) :
  isBoosting a = true -> 0 < boostTimer a - deltaTime ->
  let r := determineInputState track deltaTime a g in
  boost (fst (fst r)) = true /\
  isBoosting (snd (fst r)) = true /\
  snd r = g /\
  (boostTimer (snd (fst r)) = boostTimer a - deltaTime \/
   boostTimer (snd (fst r)) = boostDuration a).
Proof.
  intros Hb Ht. unfold determineInputState. rewrite Hb. simpl.
  destruct (Rle_dec (boostTimer a - deltaTime) 0) as [H|_];
    [exfalso; lra|].
  simpl. rewrite Hb.
  repeat match goal with
         | |- context [match ?c with Some _ => _ | None => _ end] =>
             destruct c; simpl
         | |- context [if ?c then _ else _] => destruct c; simpl
         end; repeat split; auto.
Qed.

Lemma policy_continues_running_boost_witness :
  let a := set_boostTimer 2
             (set_isBoosting true
                (set_base (PlayerHorse.set_stamina 5 (base scenarioOpponent))
                          scenarioOpponent)) in
  let g : Math.Rng := fun _ => 0.9 in
  (isBoosting a = true /\ 0 < boostTimer a - 0.1) /\
  boost (fst (fst (determineInputState scenarioTrack 0.1 a g))) = true.
Proof.
  intros a g.
  assert (H1 : isBoosting a = true) by reflexivity.
  assert (H2 : 0 < boostTimer a - 0.1) by (simpl; lra).
  split; [exact (conj H1 H2)|].
  exact (proj1 (policy_continues_running_boost scenarioTrack 0.1 a g H1 H2)).
Defined.

End Policy.

Section StrategicBoosts.

Import AIHorse.

Lemma strategicLoop_fires (progress : JS.num) (stamina : R)
      (used : list bool) (points : list R) :
  forall i0 i,
    strategicLoop progress stamina used points i0 = Some i ->
    (i0 <= i < i0 + List.length points)%nat /\
    nth i used false = false /\
    40 < stamina /\
    (progress >= JS.Fin (nth (i - i0) points 0))%js = true /\
    (progress <= JS.Fin (nth (i - i0) points 0 + 0.1))%js = true.
Proof.
  induction points as [|p points IH]; intros i0 i H;
    cbn [strategicLoop] in H.
  - discriminate.
  - assert (Hrec : strategicLoop progress stamina used points (S i0) = Some i
                   -> (i0 <= i < i0 + List.length (p :: points))%nat /\
                      nth i used false = false /\
                      40 < stamina /\
                      (progress >= JS.Fin (nth (i - i0) (p :: points) 0))%js
                      = true /\
                      (progress
                       <= JS.Fin (nth (i - i0) (p :: points) 0 + 0.1))%js
                      = true).
    { intros H'. apply IH in H'. destruct H' as ([Ha Hb] & H2 & H3 & H4 & H5).
      replace (i - i0)%nat with (S (i - S i0)) by lia.
      cbn [nth List.length]. repeat split; try assumption; lia. }
    destruct (negb (nth i0 used false)) eqn:E1; cbn [andb] in H;
      [|exact (Hrec H)].
    destruct (progress >= JS.Fin p)%js eqn:E2; cbn [andb] in H;
      [|exact (Hrec H)].
    destruct (progress <= JS.Fin (p + 0.1))%js eqn:E3; cbn [andb] in H;
      [|exact (Hrec H)].
    unfold Rgtb, Rltb in H.
    destruct (Rlt_dec 40 stamina) as [Hs|Hs]; [|exact (Hrec H)].
    injection H as <-. rewrite Nat.sub_diag. cbn [nth List.length].
    apply negb_true_iff in E1.
    repeat split; try assumption; lia.
Qed.

Lemma assign_sets (i : nat) :
  forall used, nth i (JSArray.assign i true used) false = true.
Proof.
  induction i as [|i IH]; intros [|u used]; simpl; try reflexivity; apply IH.
Qed.

Lemma assign_keeps_true (i j : nat) :
  forall used,
    nth j used false = true ->
    nth j (JSArray.assign i true used) false = true.
Proof.
  revert j. induction i as [|i IH]; intros [|j] [|u used] H; simpl in *;
    try discriminate; try reflexivity; try assumption.
  - apply IH. exact H.
Qed.

(** X13.  A strategic boost starts only at a boost point that has not
    been used, with the progress inside the window of a tenth behind
    the point and stamina over 40; and once the decision has marked the
    point as used, the loop never starts a boost at it again, whatever
    the progress and the stamina. *)
Theorem strategic_boost_fires_once (progress : JS.num) (stamina : R)
        (used : list bool) (points : list R) (i : nat) :
  strategicLoop progress stamina used points 0 = Some i ->
  ((i < List.length points)%nat /\
   nth i used false = false /\
   40 < stamina /\
   (progress >= JS.Fin (nth i points 0))%js = true /\
   (progress <= JS.Fin (nth i points 0 + 0.1))%js = true) /\
  forall progress' stamina',
    strategicLoop progress' stamina' (JSArray.assign i true used) points 0
    <> Some i.
Proof.
  intros H. split.
  - apply strategicLoop_fires in H.
    rewrite Nat.sub_0_r in H. destruct H as ([_ Hb] & H). split; [lia|exact H].
  - intros progress' stamina' H'.
    apply strategicLoop_fires in H'. destruct H' as (_ & Hu & _).
    rewrite assign_sets in Hu. discriminate.
Qed.

Lemma strategic_boost_fires_once_witness :
  let progress := JS.Fin 0.36 in
  strategicLoop progress 80 [false; false] [0.35; 0.75] 0 = Some 0%nat /\
  forall progress' stamina',
    strategicLoop progress' stamina' [true; false] [0.35; 0.75] 0
    <> Some 0%nat.
Proof.
  intros progress.
  assert (H : strategicLoop progress 80 [false; false] [0.35; 0.75] 0
              = Some 0%nat).
  { unfold strategicLoop, progress, Rgtb, Rltb. simpl.
    destruct (Rle_dec 0.35 0.36); [|exfalso; lra].
    destruct (Rle_dec 0.36 (0.35 + 0.1)); [|exfalso; lra].
    destruct (Rlt_dec 40 80); [|exfalso; lra].
    reflexivity. }
  split; [exact H|].
  exact (proj2 (strategic_boost_fires_once
                  progress 80 [false; false] [0.35; 0.75] 0 H)).
Defined.

(** X14.  No decision clears the mark of a used boost point: a point
    that was marked before the decision is marked after it. *)
Theorem policy_keeps_used_marks (track : Track.t) (deltaTime : R)
        (a : AIHorse.t) (g : Math.Rng) (j : nat) :
  nth j (usedStrategicBoosts a) false = true ->
  nth j (usedStrategicBoosts
           (snd (fst (determineInputState track deltaTime a g)))) false
  = true.
Proof.
  intros H. unfold determineInputState, Math.random.
  destruct (isBoosting a) eqn:Hb;
    [destruct
       (Rle_dec (boostTimer (set_boostTimer (boostTimer a - deltaTime) a)) 0)
    |];
    cbn [base set_boostTimer set_isBoosting set_usedStrategicBoosts
         isBoosting usedStrategicBoosts];
    repeat (match goal with
            | |- context [match ?c with Some _ => _ | None => _ end] =>
                destruct c
            | |- context [if ?c then _ else _] => destruct c
            end;
            cbn [base set_boostTimer set_isBoosting set_usedStrategicBoosts
                 isBoosting usedStrategicBoosts fst snd]);
    first [exact H | apply assign_keeps_true; exact H].
Qed.

Lemma policy_keeps_used_marks_witness :
  let a := set_usedStrategicBoosts [true; false] scenarioOpponent in
  let g : Math.Rng := fun _ => 0.9 in
  nth 0 (usedStrategicBoosts a) false = true /\
  nth 0 (usedStrategicBoosts
           (snd (fst (determineInputState scenarioTrack 0.1 a g)))) false
  = true.
Proof.
  intros a g. split; [reflexivity|].
  exact (policy_keeps_used_marks scenarioTrack 0.1 a g 0 eq_refl).
Defined.

End StrategicBoosts.

(* ================================================================== *)
(** * Properties of the opponents and of the whole game *)
(* ================================================================== *)

Section Opponents.

Import AIHorse.

(** X15.  The profile of a new opponent lies in fixed ranges, for draws
    from 0 to 1 and a difficulty that is not negative: normal top speed
    from 400 to 400 + 200 difficulty, boost top speed 1.4 times the
    normal one, acceleration from 180 to 180 + 40 difficulty, boost
    probability from 0.01 to 0.01 + 0.03 difficulty, boost duration
    from 1 to 4, boost points in [0.3, 0.4) and [0.7, 0.8), conserve
    threshold from 30 to 70; and the construction takes exactly seven
    draws. *)
Theorem new_opponent_profile_ranges (track : Track.t) (lane : Z)
        (color : string) (difficulty : R) (g : Math.Rng) :
  0 <= difficulty -> unit_draws g ->
  let a := fst (AIHorse.new track lane color difficulty g) in
  400 <= PlayerHorse.maxSpeed (base a) <= 400 + 200 * difficulty /\
  PlayerHorse.boostMaxSpeed (base a) = PlayerHorse.maxSpeed (base a) * 1.4 /\
  PlayerHorse.maxSpeed (base a) <= PlayerHorse.boostMaxSpeed (base a) /\
  180 <= PlayerHorse.acceleration (base a) <= 180 + 40 * difficulty /\
  0.01 <= boostProbability a <= 0.01 + 0.03 * difficulty /\
  1 <= boostDuration a < 4 /\
  (exists p1 p2, strategicBoostPoints a = [p1; p2] /\
                 0.3 <= p1 < 0.4 /\ 0.7 <= p2 < 0.8) /\
  30 <= conserveStaminaThreshold a < 70 /\
  forall n, snd (AIHorse.new track lane color difficulty g) n
            = g (7 + n)%nat.
Proof.
  intros Hd Hg a. subst a. unfold AIHorse.new, Math.random.
  cbn [fst snd base PlayerHorse.maxSpeed PlayerHorse.boostMaxSpeed
       PlayerHorse.acceleration PlayerHorse.set_color
       PlayerHorse.set_maxSpeed PlayerHorse.set_boostMaxSpeed
       PlayerHorse.set_acceleration boostProbability boostDuration
       strategicBoostPoints conserveStaminaThreshold].
  pose proof (Hg 0%nat) as G0. pose proof (Hg 1%nat) as G1.
  pose proof (Hg 2%nat) as G2. pose proof (Hg 3%nat) as G3.
  pose proof (Hg 4%nat) as G4. pose proof (Hg 5%nat) as G5.
  pose proof (Hg 6%nat) as G6.
  assert (M : forall r, 0 <= r < 1 ->
                        0 <= r * difficulty <= difficulty) by (intros; nra).
  pose proof (M _ G0). pose proof (M _ G1). pose proof (M _ G2).
  repeat split; try lra.
  exists (0.3 + g 4%nat * 0.1), (0.7 + g 5%nat * 0.1).
  repeat split; try reflexivity; lra.
Qed.

Lemma new_opponent_profile_ranges_witness :
  let g : Math.Rng := fun _ => 0.5 in
  (0 <= 1 /\ unit_draws g) /\
  400 <= PlayerHorse.maxSpeed (base scenarioOpponent) <= 400 + 200 * 1.
Proof.
  intros g.
  assert (H1 : 0 <= 1) by lra.
  assert (H2 : unit_draws g) by (intros n; unfold g; lra).
  split; [exact (conj H1 H2)|].
  exact (proj1 (new_opponent_profile_ranges
                  scenarioTrack 1 "#3498DB" 1 g H1 H2)).
Defined.

Lemma determineInputState_base (track : Track.t) (deltaTime : R)
      (a : AIHorse.t) (g : Math.Rng) :
  base (snd (fst (determineInputState track deltaTime a g))) = base a.
Proof.
  unfold determineInputState.
  destruct (isBoosting a); simpl;
    repeat match goal with
           | |- context [Rle_dec ?x ?y] => destruct (Rle_dec x y); simpl
           | |- context [match ?c with Some _ => _ | None => _ end] =>
               destruct c; simpl
           | |- context [if ?c then _ else _] => destruct c; simpl
           end; reflexivity.
Qed.

Lemma ai_update_base (track : Track.t) (deltaTime : R) (a : AIHorse.t)
      (g : Math.Rng) :
  base (fst (AIHorse.update track deltaTime a g))
  = PlayerHorse.update
      track deltaTime
      (fst (fst (determineInputState track deltaTime a g))) (base a).
Proof.
  unfold AIHorse.update.
  pose proof (determineInputState_base track deltaTime a g) as E.
  destruct (determineInputState track deltaTime a g) as [[i a'] g'].
  simpl in *. rewrite E. reflexivity.
Qed.

Lemma ai_update_ok (track : Track.t) (deltaTime : R) (a : AIHorse.t)
      (g : Math.Rng) :
  0 <= deltaTime -> racer_ok (base a) ->
  racer_ok (base (fst (AIHorse.update track deltaTime a g))).
Proof.
  intros Hdt [Hr Hb]. rewrite ai_update_base. split.
  - apply update_rates_nonneg. exact Hr.
  - apply update_in_bounds; assumption.
Qed.

Lemma updateLoop_ok (track : Track.t) (deltaTime : R)
      (horses : list AIHorse.t) :
  forall g,
    0 <= deltaTime ->
    Forall (fun a => racer_ok (base a)) horses ->
    Forall (fun a => racer_ok (base a))
           (fst (AIManager.updateLoop track deltaTime horses g)).
Proof.
  induction horses as [|a horses IH]; intros g Hdt Hall; simpl.
  - constructor.
  - inversion Hall as [|? ? Ha Hrest]; subst.
    pose proof (ai_update_ok track deltaTime a g Hdt Ha) as Ha'.
    destruct (AIHorse.update track deltaTime a g) as [a' g'].
    specialize (IH g' Hdt Hrest).
    destruct (AIManager.updateLoop track deltaTime horses g') as [hs g''].
    simpl in *. constructor; assumption.
Qed.

Lemma reset_ok (track : Track.t) (h : PlayerHorse.t) :
  racer_ok h -> racer_ok (PlayerHorse.reset track h).
Proof.
  intros [Hr (Hs & H0 & H1)]. unfold racer_ok, rates_nonneg, in_bounds in *.
  simpl. repeat split; try tauto; lra.
Qed.

Lemma manager_reset_ok (track : Track.t) (m : AIManager.t) :
  Forall (fun a => racer_ok (base a)) (AIManager.aiHorses m) ->
  Forall (fun a => racer_ok (base a))
         (AIManager.aiHorses (AIManager.reset track m)).
Proof.
  unfold AIManager.reset. cbn [AIManager.aiHorses].
  induction (AIManager.aiHorses m) as [|a l IH]; intros H; simpl.
  - constructor.
  - inversion H as [|? ? Ha Hl]; subst. constructor.
    + apply (reset_ok track (base a) Ha).
    + apply IH. exact Hl.
Qed.

Lemma game_reset_ok (game : RaceGame.t) :
  game_in_bounds game -> game_in_bounds (RaceGame.reset game).
Proof.
  intros [Hp Ha]. unfold game_in_bounds, RaceGame.reset.
  cbn [RaceGame.playerHorse RaceGame.aiManager]. split.
  - apply reset_ok. exact Hp.
  - apply manager_reset_ok. exact Ha.
Qed.

Lemma game_update_ok (deltaTime : R) (game : RaceGame.t) (g : Math.Rng) :
  0 <= deltaTime -> game_in_bounds game ->
  game_in_bounds (fst (RaceGame.update deltaTime game g)).
Proof.
  intros Hdt Hok. pose proof Hok as [Hp Ha].
  unfold RaceGame.update.
  destruct (RaceGame.gameState game).
  - exact Hok.
  - destruct (forward _); exact Hok.
  - cbn [RaceGame.countdownTimer RaceGame.set_countdownTimer].
    destruct (Rle_dec _ 0); exact Hok.
  - unfold AIManager.update.
    pose proof (updateLoop_ok (RaceGame.track game) deltaTime
                  (AIManager.aiHorses (RaceGame.aiManager game)) g Hdt Ha)
      as Ha'.
    destruct (AIManager.updateLoop (RaceGame.track game) deltaTime
                (AIManager.aiHorses (RaceGame.aiManager game)) g)
      as [horses g'].
    assert (Hp' : racer_ok
                    (PlayerHorse.update (RaceGame.track game) deltaTime
                       (getInputState (RaceGame.inputHandler game))
                       (RaceGame.playerHorse game))).
    { destruct Hp as [Hr Hb]. split.
      - apply update_rates_nonneg. exact Hr.
      - apply update_in_bounds; assumption. }
    cbn [fst] in Ha'.
    cbn [RaceGame.playerHorse RaceGame.aiManager
         RaceGame.resultsScreen_visible].
    repeat match goal with
           | |- context [if ?c then _ else _] => destruct c
           end;
      unfold game_in_bounds;
      cbn [fst RaceGame.playerHorse RaceGame.aiManager
           RaceGame.set_gameState AIManager.aiHorses];
      split; assumption.
  - destruct (forward _ && _).
    + apply (game_reset_ok game Hok).
    + exact Hok.
Qed.

Lemma unit_draws_shift (g : Math.Rng) (k : nat) :
  unit_draws g -> unit_draws (fun n => g (k + n)%nat).
Proof. intros H n. apply H. Qed.

Lemma createLoop_ok (track : Track.t) (colors : list string) (n : nat) :
  forall i g,
    unit_draws g ->
    Forall (fun a => racer_ok (base a))
           (fst (AIManager.createLoop track colors n i g)).
Proof.
  induction n as [|n IH]; intros i g Hg; cbn [AIManager.createLoop].
  - constructor.
  - set (lane := if (3 <=? Z.of_nat i + 1)%Z
                 then (Z.of_nat i + 1 + 1)%Z else (Z.of_nat i + 1)%Z).
    set (color := nth (i mod List.length colors) colors ""%string).
    assert (Hd : 0 <= 0.8 + INR i * 0.1) by (pose proof (pos_INR i); lra).
    pose proof (new_ai_rates_nonneg track lane color _ g Hd Hg) as Hnew.
    assert (Hg' : unit_draws
                    (snd (AIHorse.new track lane color (0.8 + INR i * 0.1) g)))
      by (apply (unit_draws_shift g 7 Hg)).
    destruct (AIHorse.new track lane color (0.8 + INR i * 0.1) g)
      as [horse g'].
    cbn [fst snd] in *.
    specialize (IH (S i) g' Hg').
    destruct (AIManager.createLoop track colors n (S i) g') as [horses g''].
    cbn [fst] in *. constructor; [exact Hnew|exact IH].
Qed.

Lemma dispatch_ok (e : Event) (game : RaceGame.t) (g : Math.Rng) :
  match e with
  | AnimationFrame timestamp => RaceGame.lastTimestamp game <= timestamp
  | _ => True
  end ->
  game_in_bounds game -> game_in_bounds (fst (dispatch e game g)).
Proof.
  intros He Hok. destruct e; cbn [dispatch fst]; try exact Hok.
  unfold RaceGame.gameLoop. apply game_update_ok.
  - cbn [RaceGame.lastTimestamp RaceGame.set_lastTimestamp].
    unfold Rmin. destruct (Rle_dec _ _); lra.
  - exact Hok.
Qed.

Lemma dispatch_lastTimestamp (e : Event) (game : RaceGame.t) (g : Math.Rng) :
  RaceGame.lastTimestamp (fst (dispatch e game g))
  = match e with
    | AnimationFrame timestamp => timestamp
    | _ => RaceGame.lastTimestamp game
    end.
Proof.
  destruct e; cbn [dispatch fst]; try reflexivity.
  unfold RaceGame.gameLoop, RaceGame.update.
  cbn [RaceGame.gameState RaceGame.set_lastTimestamp].
  destruct (RaceGame.gameState game);
    cbn [RaceGame.inputHandler RaceGame.countdownTimer
         RaceGame.set_countdownTimer RaceGame.track RaceGame.playerHorse
         RaceGame.aiManager RaceGame.resultsScreen_visible];
    repeat match goal with
           | |- context [let (_, _) := ?c in _] => destruct c
           | |- context [Rle_dec ?x ?y] => destruct (Rle_dec x y)
           | |- context [if ?c then _ else _] => destruct c
           end; reflexivity.
Qed.

Lemma new_game_ok (cv : Canvas.t) (g : Math.Rng) :
  unit_draws g ->
  game_in_bounds (fst (RaceGame.new cv g)) /\
  RaceGame.lastTimestamp (fst (RaceGame.new cv g)) = 0.
Proof.
  intros Hg. unfold RaceGame.new, AIManager.new, AIManager.createAIHorses.
  pose proof (createLoop_ok
                (Track.new cv)
                ["#3498DB"; "#2ECC71"; "#9B59B6"; "#F1C40F"; "#E74C3C";
                 "#1ABC9C"; "#D35400"]%string 5 0 g Hg) as Hc.
  cbn [AIManager.colors AIManager.aiCount].
  destruct (AIManager.createLoop _ _ 5 0 g) as [horses g'].
  cbn [fst] in *. unfold RaceGame.init. split; [|reflexivity].
  match goal with
  | |- game_in_bounds (RaceGame.set_gameState _ (RaceGame.reset ?x)) =>
      assert (Hx : game_in_bounds x)
  end.
  { split; [|exact Hc].
    cbn [RaceGame.playerHorse]. split; apply new_player_rates_nonneg. }
  apply game_reset_ok in Hx. exact Hx.
Qed.

Lemma run_ok (events : list Event) :
  forall game g,
    timestamps_ascend (RaceGame.lastTimestamp game) events ->
    game_in_bounds game ->
    game_in_bounds (fst (run events game g)).
Proof.
  induction events as [|e events IH]; intros game g Ht Hok.
  - exact Hok.
  - cbn [run].
    assert (He : match e with
                 | AnimationFrame timestamp =>
                     RaceGame.lastTimestamp game <= timestamp
                 | _ => True
                 end)
      by (destruct e; cbn [timestamps_ascend] in Ht; tauto).
    pose proof (dispatch_ok e game g He Hok) as H1.
    pose proof (dispatch_lastTimestamp e game g) as Hl.
    destruct (dispatch e game g) as [game1 g1]. cbn [fst] in *.
    apply IH; [|exact H1].
    rewrite Hl. destruct e; cbn [timestamps_ascend] in Ht; tauto.
Qed.

(** X16.  Every racer of a game stays within its bounds, speed not
    negative and stamina from 0 to its maximum, from the construction
    of the game on and through any sequence of key events, losses of
    focus, resizes and animation frames, provided that the timestamps
    of the frames never go back. *)
Theorem racers_stay_in_bounds_through_the_game
        (cv : Canvas.t) (g : Math.Rng) (events : list Event) :
  unit_draws g -> timestamps_ascend 0 events ->
  game_in_bounds
    (fst (run events (fst (RaceGame.new cv g)) (snd (RaceGame.new cv g)))).
Proof.
  intros Hg Ht. destruct (new_game_ok cv g Hg) as [H0 Hl].
  apply run_ok; [rewrite Hl; exact Ht|exact H0].
Qed.

Lemma racers_stay_in_bounds_through_the_game_witness :
  let g : Math.Rng := fun _ => 0.5 in
  let events :=
    [KeyDown "w"; AnimationFrame 16; AnimationFrame 5000; Resize 800 600;
     KeyDown " "; AnimationFrame 5016; Blur; AnimationFrame 5033] in
  let cv := Canvas.make 1000 800 in
  (unit_draws g /\ timestamps_ascend 0 events) /\
  game_in_bounds
    (fst (run events (fst (RaceGame.new cv g)) (snd (RaceGame.new cv g)))).
Proof.
  intros g events cv.
  assert (H1 : unit_draws g) by (intros n; unfold g; lra).
  assert (H2 : timestamps_ascend 0 events) by (simpl; lra).
  split; [exact (conj H1 H2)|].
  exact (racers_stay_in_bounds_through_the_game cv g events H1 H2).
Defined.

End Opponents.

Section Manager.

Lemma createLoop_lanes (track : Track.t) (colors : list string) (n : nat) :
  forall i g,
    map laneOf (fst (AIManager.createLoop track colors n i g))
    = map laneFor (seq i n).
Proof.
  induction n as [|n IH]; intros i g; cbn [AIManager.createLoop].
  - reflexivity.
  - fold (laneFor i).
    pose proof (new_ai_lane track (laneFor i)
                  (nth (i mod List.length colors) colors ""%string)
                  (0.8 + INR i * 0.1) g) as Hl.
    destruct (AIHorse.new track (laneFor i) _ (0.8 + INR i * 0.1) g)
      as [horse g'].
    specialize (IH (S i) g').
    destruct (AIManager.createLoop track colors n (S i) g')
      as [horses g''].
    cbn [fst map seq] in *. rewrite Hl, IH. reflexivity.
Qed.

Lemma laneFor_injective (i j : nat) : laneFor i = laneFor j -> i = j.
Proof.
  unfold laneFor.
  destruct (3 <=? Z.of_nat i + 1)%Z eqn:Ei;
    destruct (3 <=? Z.of_nat j + 1)%Z eqn:Ej;
    rewrite ?Z.leb_le, ?Z.leb_gt in *; lia.
Qed.

Lemma laneFor_range (i : nat) : (1 <= laneFor i)%Z /\ laneFor i <> 3%Z.
Proof.
  unfold laneFor.
  destruct (3 <=? Z.of_nat i + 1)%Z eqn:Ei;
    rewrite ?Z.leb_le, ?Z.leb_gt in *; lia.
Qed.

(** X17.  A manager made for [count] opponents holds exactly [count]
    of them, each in a lane of its own, none in lane 0 and none in
    lane 3, the lane of the player. *)
Theorem opponents_get_lanes_of_their_own (track : Track.t) (count : nat)
        (g : Math.Rng) :
  let m := fst (AIManager.new track count g) in
  List.length (AIManager.aiHorses m) = count /\
  NoDup (map laneOf (AIManager.aiHorses m)) /\
  Forall (fun lane => (1 <= lane)%Z /\ lane <> 3%Z)
         (map laneOf (AIManager.aiHorses m)).
Proof.
  unfold AIManager.new, AIManager.createAIHorses.
  cbn [AIManager.colors AIManager.aiCount].
  pose proof (createLoop_lanes
                track
                ["#3498DB"; "#2ECC71"; "#9B59B6"; "#F1C40F"; "#E74C3C";
                 "#1ABC9C"; "#D35400"]%string count 0 g) as Hl.
  destruct (AIManager.createLoop track _ count 0 g) as [horses g'].
  cbn [fst AIManager.aiHorses] in *. split; [|split].
  - rewrite <- (length_map laneOf horses), Hl, length_map. apply length_seq.
  - rewrite Hl. apply Finite.Injective_map_NoDup.
    + intros i j. apply laneFor_injective.
    + apply seq_NoDup.
  - rewrite Hl. apply Forall_forall. intros lane Hin.
    apply in_map_iff in Hin. destruct Hin as (i & <- & _).
    apply laneFor_range.
Qed.

Lemma insert_in_front {A : Type} (comparefn : A -> A -> JS.num) (x : A)
      (l : list A) :
  (forall y, In y l -> (comparefn x y > JS.Fin 0)%js = false) ->
  JSArray.insert comparefn x l = x :: l.
Proof.
  intros H. destruct l as [|y l]; cbn [JSArray.insert]; [reflexivity|].
  rewrite (H y (or_introl eq_refl)). reflexivity.
Qed.

Lemma sort_leaves_ties {A : Type} (comparefn : A -> A -> JS.num)
      (l : list A) :
  (forall x y, In x l -> In y l -> (comparefn x y > JS.Fin 0)%js = false) ->
  JSArray.sort comparefn l = l.
Proof.
  induction l as [|x l IH]; intros H; cbn [JSArray.sort]; [reflexivity|].
  rewrite IH.
  - apply insert_in_front. intros y Hy.
    apply H; [left; reflexivity|right; exact Hy].
  - intros a b Ha Hb. apply H; right; assumption.
Qed.

(** X18.  [getRacePlacements] returns every opponent and the player,
    each once; and when all of them have finished it returns them as
    they were listed, the opponents in their order and the player last,
    whoever finished first: no finish time is ever stored, so two
    finished racers compare as equal. *)
Theorem race_placements_of_finished_racers (track : Track.t)
        (m : AIManager.t) (playerHorse : PlayerHorse.t) :
  let allHorses := map AIHorse.base (AIManager.aiHorses m) ++ [playerHorse] in
  Permutation (AIManager.getRacePlacements track m playerHorse) allHorses /\
  (AIManager.allFinished m = true ->
   PlayerHorse.hasFinishedRace playerHorse = true ->
   AIManager.getRacePlacements track m playerHorse = allHorses).
Proof.
  intros allHorses. unfold AIManager.getRacePlacements. fold allHorses.
  split; [apply sort_perm|].
  intros Ha Hp. apply sort_leaves_ties. intros a b Hina Hinb.
  assert (Hfin : forall h, In h allHorses ->
                           PlayerHorse.hasFinishedRace h = true).
  { intros h Hin. unfold allHorses in Hin. apply in_app_or in Hin.
    destruct Hin as [Hin|[<-|[]]]; [|exact Hp].
    apply in_map_iff in Hin. destruct Hin as (ai & <- & Hai).
    unfold AIManager.allFinished in Ha. rewrite forallb_forall in Ha.
    exact (Ha ai Hai). }
  unfold AIManager.placementOrder.
  rewrite (Hfin a Hina), (Hfin b Hinb). reflexivity.
Qed.

(** X19.  [getHorsesByProgress] returns the opponents, each once, and,
    on a track whose length is a finite number other than zero, in
    descending order of progress. *)
Theorem horses_by_progress_descend (track : Track.t) (m : AIManager.t) :
  Permutation (AIManager.getHorsesByProgress track m)
              (AIManager.aiHorses m) /\
  (forall L, Track.totalLength track = JS.Fin L -> L <> 0 ->
     StronglySorted num_ge
       (map (AIHorse.trackProgress track)
            (AIManager.getHorsesByProgress track m))).
Proof.
  unfold AIManager.getHorsesByProgress. split; [apply sort_perm|].
  intros L E HL.
  apply (sort_sorted (AIHorse.trackProgress track)).
  apply Forall_forall. intros a _. unfold AIHorse.trackProgress.
  rewrite (trackProgress_finite track (AIHorse.base a) L E HL). exact I.
Qed.

End Manager.

Section Director.

Import RaceGame.

(** X20.  While the player has not finished, the race goes on: a tick of
    the RACING state after which the player is not finished leaves the
    game in RACING, with the ranking and the results view as they were,
    even when every opponent has finished. *)
Theorem race_goes_on_until_the_player_finishes
        (deltaTime : R) (game : RaceGame.t) (g : Math.Rng) :
  gameState game = RACING ->
  PlayerHorse.finished (playerHorse (fst (update deltaTime game g))) = false ->
  let game' := fst (update deltaTime game g) in
  gameState game' = RACING /\
  finalPlacements game' = finalPlacements game /\
  resultsScreen_visible game' = resultsScreen_visible game /\
  track game' = track game.
Proof.
  intros Hs Hf.
  rewrite (update_racing_player deltaTime game g Hs) in Hf.
  unfold update in *. rewrite Hs.
  destruct (AIManager.update (track game) deltaTime (aiManager game) g)
    as [aiManager' g'].
  cbn [playerHorse resultsScreen_visible aiManager track gameState
       finalPlacements].
  unfold PlayerHorse.hasFinishedRace, getInputState in *.
  rewrite Hf. cbn [negb andb playerHorse aiManager].
  rewrite Hf, andb_false_r.
  cbn [fst gameState finalPlacements resultsScreen_visible track].
  repeat split; reflexivity.
Qed.

Lemma race_goes_on_until_the_player_finishes_witness :
  let game :=
    RaceGame.make
      (Canvas.make 1000 800) RACING scenarioTrack
      (PlayerHorse.new scenarioTrack 3)
      (AIManager.make 0 [] [])
      (InputHandler.make (mkInputState true false) [] [])
      false [] 0 3 0 in
  let g : Math.Rng := fun _ => 0.5 in
  (gameState game = RACING /\
   PlayerHorse.finished (playerHorse (fst (update 0.1 game g))) = false) /\
  gameState (fst (update 0.1 game g)) = RACING.
Proof.
  intros game g.
  assert (H1 : gameState game = RACING) by reflexivity.
  assert (H2 : PlayerHorse.finished (playerHorse (fst (update 0.1 game g)))
               = false).
  { rewrite update_racing_player by reflexivity.
    destruct (PlayerHorse.finished
                (PlayerHorse.update (track game) 0.1
                   (getInputState (inputHandler game)) (playerHorse game)))
      eqn:E; [|reflexivity].
    apply update_finished_iff in E; [|reflexivity].
    rewrite update_distance in E by reflexivity.
    exfalso. revert E.
    cbn [track game getInputState inputHandler InputHandler.inputState
         playerHorse].
    unfold PlayerHorse.handleInput, Rgtb, Rltb.
    cbn [forward boost andb negb PlayerHorse.new PlayerHorse.reset
         PlayerHorse.set_distance PlayerHorse.set_speed
         PlayerHorse.set_stamina PlayerHorse.set_finished
         PlayerHorse.set_position PlayerHorse.set_finishLineY
         PlayerHorse.speed PlayerHorse.stamina PlayerHorse.maxSpeed
         PlayerHorse.acceleration PlayerHorse.maxStamina
         PlayerHorse.staminaRecoveryRate PlayerHorse.distance].
    repeat match goal with
           | |- context [Rlt_dec ?a ?b] =>
               destruct (Rlt_dec a b);
               cbn [PlayerHorse.set_speed PlayerHorse.set_stamina
                    PlayerHorse.speed PlayerHorse.stamina
                    PlayerHorse.maxStamina PlayerHorse.staminaRecoveryRate]
           end;
      unfold JS.geb, JS.leb, scenarioTrack; cbn [Track.totalLength];
      match goal with
      | |- context [Rle_dec ?a ?b] =>
          destruct (Rle_dec a b); [exfalso; lra|discriminate]
      end. }
  split; [exact (conj H1 H2)|].
  exact (proj1 (race_goes_on_until_the_player_finishes 0.1 game g H1 H2)).
Defined.

(** X21.  Outside the RACING state a tick moves no racer and takes no
    draw: in LOADING, MENU and COUNTDOWN the player, the opponents, the
    track and the ranking are as before; and in FINISHED, without the
    forward intent or without the results showing, the whole game is as
    before, so the ranking stays as it was computed. *)
Theorem ticks_outside_the_race_move_nothing
        (deltaTime : R) (game : RaceGame.t) (g : Math.Rng) :
  let game' := fst (update deltaTime game g) in
  (gameState game <> RACING ->
   gameState game <> FINISHED ->
   playerHorse game' = playerHorse game /\
   aiManager game' = aiManager game /\
   track game' = track game /\
   finalPlacements game' = finalPlacements game /\
   snd (update deltaTime game g) = g) /\
  (gameState game = FINISHED ->
   InputHandler.forward (InputHandler.getInputState (inputHandler game))
   && resultsScreen_visible game = false ->
   update deltaTime game g = (game, g)).
Proof.
  unfold update. split.
  - intros Hr Hf. destruct (gameState game); try contradiction.
    + repeat split; reflexivity.
    + destruct (forward _); repeat split; reflexivity.
    + cbn [countdownTimer set_countdownTimer].
      destruct (Rle_dec _ 0); repeat split; reflexivity.
  - intros Hs Hc. rewrite Hs, Hc. reflexivity.
Qed.

Lemma frame_countdown (timestamp : R) (game : RaceGame.t) (g : Math.Rng) :
  gameState game = COUNTDOWN ->
  0.1 < countdownTimer game ->
  gameState (fst (gameLoop timestamp game g)) = COUNTDOWN /\
  countdownTimer game - 0.1
  <= countdownTimer (fst (gameLoop timestamp game g)).
Proof.
  intros Hs Ht. unfold gameLoop, update.
  cbn [gameState set_lastTimestamp]. rewrite Hs.
  cbn [countdownTimer set_countdownTimer set_lastTimestamp].
  set (dt := Rmin _ 0.1).
  assert (Hdt : dt <= 0.1) by apply Rmin_r.
  match goal with
  | |- context [Rle_dec ?a ?b] => destruct (Rle_dec a b) as [H|H]
  end; [exfalso; lra|].
  cbn [fst gameState countdownTimer set_countdownTimer set_lastTimestamp].
  split; [exact Hs|lra].
Qed.

Lemma run_countdown (events : list Event) :
  forall game g,
    gameState game = COUNTDOWN ->
    INR (frameCount events) * 0.1 < countdownTimer game ->
    gameState (fst (run events game g)) = COUNTDOWN /\
    countdownTimer game - INR (frameCount events) * 0.1
    <= countdownTimer (fst (run events game g)).
Proof.
  induction events as [|e events IH]; intros game g Hs Ht.
  - cbn [run fst frameCount INR] in *. split; [exact Hs|lra].
  - assert (Hn : 0 <= INR (frameCount events) * 0.1)
      by (pose proof (pos_INR (frameCount events)); lra).
    assert (Hother :
              gameState (fst (dispatch e game g)) = COUNTDOWN ->
              countdownTimer (fst (dispatch e game g)) = countdownTimer game ->
              frameCount (e :: events) = frameCount events ->
              gameState (fst (run (e :: events) game g)) = COUNTDOWN /\
              countdownTimer game - INR (frameCount (e :: events)) * 0.1
              <= countdownTimer (fst (run (e :: events) game g))).
    { intros Hs' Ht' Hc. rewrite Hc in *. cbn [run].
      destruct (dispatch e game g) as [game1 g1]. cbn [fst] in Hs', Ht'.
      destruct (IH game1 g1 Hs') as [I1 I2]; [lra|].
      split; [exact I1|lra]. }
    destruct e as [key|key| |w h|timestamp];
      try (apply Hother; reflexivity || exact Hs).
    clear Hother. cbn [frameCount] in *. rewrite S_INR in *.
    destruct (frame_countdown timestamp game g Hs) as [Hs' Ht']; [lra|].
    cbn [run dispatch].
    destruct (gameLoop timestamp game g) as [game1 g1]. cbn [fst] in *.
    destruct (IH game1 g1 Hs') as [I1 I2]; [lra|].
    split; [exact I1|lra].
Qed.

(** X22.  The countdown cannot be cut short: a frame takes at most a
    tenth of a second off the countdown timer, however far apart the
    timestamps are, and no other event touches it, so a game in
    COUNTDOWN is still in COUNTDOWN after any sequence of events with
    fewer animation frames than ten times the seconds left. *)
Theorem countdown_takes_ten_frames_a_second
        (events : list Event) (game : RaceGame.t) (g : Math.Rng) :
  gameState game = COUNTDOWN ->
  INR (frameCount events) * 0.1 < countdownTimer game ->
  gameState (fst (run events game g)) = COUNTDOWN.
Proof.
  intros Hs Ht. exact (proj1 (run_countdown events game g Hs Ht)).
Qed.

Lemma countdown_takes_ten_frames_a_second_witness :
  let game :=
    RaceGame.make
      (Canvas.make 1000 800) COUNTDOWN scenarioTrack
      (PlayerHorse.new scenarioTrack 3)
      (AIManager.make 0 [] [])
      (InputHandler.make (mkInputState true false) [] [])
      false [] 0 3 3 in
  let g : Math.Rng := fun _ => 0.5 in
  let events := [AnimationFrame 60000; KeyUp "w"; AnimationFrame 120000] in
  (gameState game = COUNTDOWN /\
   INR (frameCount events) * 0.1 < countdownTimer game) /\
  gameState (fst (run events game g)) = COUNTDOWN.
Proof.
  intros game g events.
  assert (H1 : gameState game = COUNTDOWN) by reflexivity.
  assert (H2 : INR (frameCount events) * 0.1 < countdownTimer game)
    by (simpl; lra).
  split; [exact (conj H1 H2)|].
  exact (countdown_takes_ten_frames_a_second events game g H1 H2).
Defined.

End Director.

(* ================================================================== *)
(** * Properties of the key handling and of the results screen *)
(* ================================================================== *)

Section Keys.

Import InputHandler.

Ltac key_cases key :=
  repeat match goal with
         | |- context [String.eqb key ?s] =>
             let E := fresh "E" in
             destruct (String.eqb key s) eqn:E;
             [apply String.eqb_eq in E; subst key|]; cbn
         end.

(** X23.  A key press turns on the intent of the key and a release
    turns it off, each without touching the other intent; a key that is
    on neither list changes nothing; and a loss of focus turns both
    intents off.  No handler changes the key lists. *)
Theorem keys_switch_their_own_intent (key : string) (h : InputHandler.t) :
  standard_keys h ->
  let down := handleKeyDown key h in
  let up := handleKeyUp key h in
  (standard_keys down /\ standard_keys up /\ standard_keys (handleBlur h)) /\
  (includes (keys_forward h) key = true ->
   inputState down = mkInputState true (boost (inputState h)) /\
   inputState up = mkInputState false (boost (inputState h))) /\
  (includes (keys_boost h) key = true ->
   inputState down = mkInputState (forward (inputState h)) true /\
   inputState up = mkInputState (forward (inputState h)) false) /\
  (includes (keys_forward h) key = false ->
   includes (keys_boost h) key = false ->
   inputState down = inputState h /\ inputState up = inputState h) /\
  inputState (handleBlur h) = mkInputState false false.
Proof.
  intros [Ef Eb]. destruct h as [[f b] kf kb]. cbn in Ef, Eb. subst kf kb.
  unfold standard_keys, handleKeyDown, handleKeyUp, handleBlur,
    resetInputState, includes.
  cbn [keys_forward keys_boost inputState forward boost existsb].
  repeat split; try reflexivity;
    key_cases key; intros; try discriminate; reflexivity.
Qed.

Lemma keys_switch_their_own_intent_witness :
  let h := handleKeyDown " " InputHandler.new in
  standard_keys h /\
  inputState (handleKeyDown "w" h) = mkInputState true true /\
  inputState (handleKeyUp "w" (handleKeyDown "w" h)) = mkInputState false true.
Proof.
  intros h.
  assert (H : standard_keys h) by (split; reflexivity).
  split; [exact H|].
  destruct (keys_switch_their_own_intent "w" h H) as (_ & Hf & _).
  split; reflexivity.
Defined.

End Keys.

Section Results.

Import RaceGame.

(** X24.  The ordinal suffix depends on the last two digits only: it is
    the same for [n] and [n + 100]; it is "th" for the last two digits
    11, 12 and 13 and for the last digits 0 and 4 to 9, and otherwise
    "st", "nd" or "rd" for the last digit 1, 2 or 3. *)
Theorem ordinal_suffix_by_last_two_digits (n : nat) :
  ResultsScreen.getOrdinalSuffix (n + 100) = ResultsScreen.getOrdinalSuffix n
  /\ ((11 <= n mod 100 <= 13)%nat ->
      ResultsScreen.getOrdinalSuffix n = "th"%string)
  /\ ((n mod 10 = 0 \/ 4 <= n mod 10)%nat ->
      ResultsScreen.getOrdinalSuffix n = "th"%string)
  /\ (~ (11 <= n mod 100 <= 13)%nat ->
      ((n mod 10 = 1)%nat -> ResultsScreen.getOrdinalSuffix n = "st"%string) /\
      ((n mod 10 = 2)%nat -> ResultsScreen.getOrdinalSuffix n = "nd"%string) /\
      ((n mod 10 = 3)%nat -> ResultsScreen.getOrdinalSuffix n = "rd"%string)).
Proof.
  assert (H10 : ((n + 100) mod 10 = n mod 10)%nat).
  { replace 100%nat with (10 * 10)%nat by reflexivity.
    rewrite Nat.Div0.mod_add. reflexivity. }
  assert (H100 : ((n + 100) mod 100 = n mod 100)%nat).
  { replace (n + 100)%nat with (n + 1 * 100)%nat by lia.
    rewrite Nat.Div0.mod_add. reflexivity. }
  assert (Hrel : ((n mod 100) mod 10 = n mod 10)%nat).
  { replace 100%nat with (10 * 10)%nat by reflexivity.
    rewrite Nat.Div0.mod_mul_r.
    replace (n mod 10 + 10 * ((n / 10) mod 10))%nat
      with (n mod 10 + ((n / 10) mod 10) * 10)%nat by lia.
    rewrite Nat.Div0.mod_add. apply Nat.Div0.mod_mod. }
  unfold ResultsScreen.getOrdinalSuffix. rewrite H10, H100.
  split; [reflexivity|].
  pose proof (Nat.mod_upper_bound n 10 ltac:(lia)) as B10.
  remember (n mod 10)%nat as j eqn:Ej.
  remember (n mod 100)%nat as k eqn:Ek.
  clear Ej Ek H10 H100.
  repeat split.
  - intros [Ha Hb].
    assert (k = 11 \/ k = 12 \/ k = 13)%nat as [E|[E|E]] by lia;
      subst k; vm_compute in Hrel; subst j; reflexivity.
  - clear Hrel. intros [E|Hge].
    + subst j. reflexivity.
    + destruct j as [|[|[|[|d]]]]; try lia. reflexivity.
  - clear Hrel. intros E. subst j. cbn [Nat.eqb andb].
    destruct (Nat.eqb_spec k 11) as [E'|_]; [|reflexivity].
    exfalso. apply H. lia.
  - clear Hrel. intros E. subst j. cbn [Nat.eqb andb].
    destruct (Nat.eqb_spec k 12) as [E'|_]; [|reflexivity].
    exfalso. apply H. lia.
  - clear Hrel. intros E. subst j. cbn [Nat.eqb andb].
    destruct (Nat.eqb_spec k 13) as [E'|_]; [|reflexivity].
    exfalso. apply H. lia.
Qed.

Lemma sort_keeps_sorted {A : Type} (comparefn : A -> A -> JS.num)
      (l : list A) :
  StronglySorted (fun x y => (comparefn x y > JS.Fin 0)%js = false) l ->
  JSArray.sort comparefn l = l.
Proof.
  induction 1 as [|x l Hs IH Hall]; cbn [JSArray.sort]; [reflexivity|].
  rewrite IH. apply insert_in_front. rewrite Forall_forall in Hall.
  exact Hall.
Qed.

Lemma strongly_sorted_weaken {A : Type} (R S : A -> A -> Prop)
      (l : list A) :
  (forall a b, R a b -> S a b) ->
  StronglySorted R l -> StronglySorted S l.
Proof.
  intros HRS. induction 1 as [|x l Hs IH Hall]; constructor.
  - exact IH.
  - apply (Forall_impl _ (HRS x) Hall).
Qed.

Lemma withPlace_ascending (l : list Entry) :
  forall k,
    StronglySorted (fun a b => (place a < place b)%nat)
                   (JSArray.mapi_from withPlace k l).
Proof.
  induction l as [|e l IH]; intros k; cbn [JSArray.mapi_from];
    constructor.
  - apply IH.
  - apply Forall_forall. intros p Hp.
    apply withPlace_later_places in Hp. cbn [withPlace place]. lia.
Qed.

(** X25.  The results screen draws the ranking in the order in which
    the race computed it: sorting the stored ranking by place changes
    nothing. *)
Theorem results_screen_keeps_the_ranking (track : Track.t)
        (allHorses : list PlayerHorse.t) :
  ResultsScreen.sortedPlacements (computePlacements track allHorses)
  = computePlacements track allHorses.
Proof.
  unfold ResultsScreen.sortedPlacements. apply sort_keeps_sorted.
  rewrite computePlacements_eq. unfold JSArray.mapi.
  eapply strongly_sorted_weaken; [|apply withPlace_ascending].
  intros a b Hlt. cbn beta.
  unfold JS.gtb, JS.sub. cbn [JS.neg JS.add JS.ltb].
  apply lt_INR in Hlt.
  destruct (Rlt_dec 0 (INR (place a) + - INR (place b)));
    [exfalso; lra|reflexivity].
Qed.

End Results.

(* ================================================================== *)
(** * Further properties of the track *)
(* ================================================================== *)

Section TrackFurther.

Lemma trunc_nonneg (x : R) : 0 <= x -> JS.trunc x = Int_part x.
Proof.
  intros H. unfold JS.trunc. destruct (Rle_dec 0 x); [reflexivity|contradiction].
Qed.

Lemma trunc_small (x : R) : 0 <= x < 1 -> JS.trunc x = 0%Z.
Proof.
  intros [H0 H1]. rewrite trunc_nonneg by exact H0.
  symmetry. apply Int_part_spec. simpl. lra.
Qed.

Lemma trunc_plus_one (x : R) :
  0 <= x -> JS.trunc (x + 1) = (JS.trunc x + 1)%Z.
Proof.
  intros H. rewrite !trunc_nonneg by lra.
  symmetry. apply Int_part_spec. rewrite plus_IZR.
  destruct (base_Int_part x) as [Ha Hb]. simpl. lra.
Qed.

Lemma normalized_range (L distance : R) :
  0 < L -> 0 <= distance ->
  0 <= (distance - L * IZR (JS.trunc (distance / L))) / L < 1.
Proof.
  intros HL Hd.
  assert (Hq : 0 <= distance / L).
  { apply Rmult_le_pos; [exact Hd|]. left. apply Rinv_0_lt_compat. exact HL. }
  rewrite trunc_nonneg by exact Hq.
  destruct (base_Int_part (distance / L)) as [Ha Hb].
  replace ((distance - L * IZR (Int_part (distance / L))) / L)
    with (distance / L - IZR (Int_part (distance / L))) by (field; lra).
  lra.
Qed.

Lemma angleAt_next_lap (L distance : R) :
  0 < L -> 0 <= distance -> angleAt L (distance + L) = angleAt L distance.
Proof.
  intros HL Hd. unfold angleAt.
  assert (Hq : 0 <= distance / L).
  { apply Rmult_le_pos; [exact Hd|]. left. apply Rinv_0_lt_compat. exact HL. }
  replace ((distance + L) / L) with (distance / L + 1) by (field; lra).
  rewrite trunc_plus_one by exact Hq. rewrite plus_IZR.
  f_equal. f_equal. f_equal. field. lra.
Qed.

(** X26.  The position is periodic in the distance, with the length of
    the track as its period: a racer that has covered one more lap is at
    the same coordinates with the same heading; and the heading is
    always from pi/2, included, to pi/2 + 2 pi, excluded. *)
Theorem position_repeats_every_lap (track : Track.t) (L distance : R)
        (lane : Z) :
  Track.totalLength track = JS.Fin L -> 0 < L -> 0 <= distance ->
  Track.getTrackPosition track (distance + L) lane
  = Track.getTrackPosition track distance lane /\
  exists theta,
    Track.angle (Track.getTrackPosition track distance lane) = JS.Fin theta /\
    PI / 2 <= theta < PI / 2 + 2 * PI.
Proof.
  intros E HL Hd.
  rewrite !(getTrackPosition_finite track L _ lane E) by lra.
  rewrite angleAt_next_lap by assumption.
  split; [reflexivity|].
  exists (angleAt L distance). split; [reflexivity|].
  unfold angleAt. destruct (normalized_range L distance HL Hd) as [Ha Hb].
  pose proof PI_RGT_0 as Hpi.
  set (q := (distance - L * IZR (JS.trunc (distance / L))) / L) in *.
  assert (0 <= q * 2 * PI) by (apply Rmult_le_pos; lra).
  assert (q * 2 * PI < 2 * PI) by nra.
  lra.
Qed.

Lemma position_repeats_every_lap_witness :
  Track.getTrackPosition scenarioTrack (250 + 1000) 3
  = Track.getTrackPosition scenarioTrack 250 3.
Proof.
  assert (H1 : Track.totalLength scenarioTrack = JS.Fin 1000) by reflexivity.
  assert (H2 : 0 < 1000) by lra.
  assert (H3 : 0 <= 250) by lra.
  exact (proj1 (position_repeats_every_lap scenarioTrack 1000 250 3 H1 H2 H3)).
Defined.

Lemma angleAt_start (L : R) : L <> 0 -> angleAt L 0 = PI / 2.
Proof.
  intros HL. unfold angleAt.
  replace (0 / L) with 0 by (field; exact HL).
  rewrite trunc_0. simpl. field. exact HL.
Qed.

Lemma position_start_of_lane (track : Track.t) (L : R) (lane : Z) :
  Track.totalLength track = JS.Fin L -> L <> 0 ->
  Track.getTrackPosition track 0 lane
  = Track.mkPosition
      (JS.Fin (Track.centerX track))
      (JS.Fin (Track.centerY track + laneRadiusY track lane))
      (JS.Fin (PI / 2)).
Proof.
  intros E HL. rewrite (getTrackPosition_finite track L _ lane E HL).
  rewrite angleAt_start by exact HL. rewrite cos_PI2, sin_PI2.
  unfold laneRadiusY. f_equal; f_equal; ring.
Qed.

(** X27.  Every position lies on the oval of its lane, the ellipse
    around the centre of the track with the radii of the lane; and the
    position at distance 0 is the lowest point of that oval, straight
    under the centre, with heading pi/2: the place where the start and
    finish line is drawn. *)
Theorem position_is_on_the_lane_oval (track : Track.t) (L distance : R)
        (lane : Z) :
  Track.totalLength track = JS.Fin L -> L <> 0 ->
  (exists x y,
      Track.x (Track.getTrackPosition track distance lane) = JS.Fin x /\
      Track.y (Track.getTrackPosition track distance lane) = JS.Fin y /\
      (x - Track.centerX track) ^ 2 * laneRadiusY track lane ^ 2
      + (y - Track.centerY track) ^ 2 * laneRadiusX track lane ^ 2
      = laneRadiusX track lane ^ 2 * laneRadiusY track lane ^ 2) /\
  Track.getTrackPosition track 0 lane
  = Track.mkPosition
      (JS.Fin (Track.centerX track))
      (JS.Fin (Track.centerY track + laneRadiusY track lane))
      (JS.Fin (PI / 2)).
Proof.
  intros E HL. split; [|exact (position_start_of_lane track L lane E HL)].
  rewrite !(getTrackPosition_finite track L _ lane E HL).
  cbn [Track.x Track.y].
  - fold (laneRadiusX track lane) (laneRadiusY track lane).
    eexists. eexists. split; [reflexivity|]. split; [reflexivity|].
    pose proof (sin2_cos2 (angleAt L distance)) as Hsc.
    unfold Rsqr in Hsc.
    set (s := sin (angleAt L distance)) in *.
    set (c := cos (angleAt L distance)) in *.
    set (rx := laneRadiusX track lane). set (ry := laneRadiusY track lane).
    replace ((Track.centerX track + rx * c - Track.centerX track) ^ 2 * ry ^ 2
             + (Track.centerY track + ry * s - Track.centerY track) ^ 2
               * rx ^ 2)
      with (rx ^ 2 * ry ^ 2 * (s * s + c * c)) by ring.
    rewrite Hsc. ring.
Qed.

Lemma position_is_on_the_lane_oval_witness :
  Track.getTrackPosition scenarioTrack 0 3
  = Track.mkPosition (JS.Fin 500) (JS.Fin (400 + laneRadiusY scenarioTrack 3))
                     (JS.Fin (PI / 2)).
Proof.
  assert (H1 : Track.totalLength scenarioTrack = JS.Fin 1000) by reflexivity.
  assert (H2 : 1000 <> 0) by lra.
  exact (proj2 (position_is_on_the_lane_oval scenarioTrack 1000 0 3 H1 H2)).
Defined.

(** X28.  On a new track, [isAtFinishLine] with the threshold 50 does
    not hold for the start position of every lane: it holds for the
    start positions of the lanes 4 to 8 and for no other lane, so not
    for lane 3, in which the player starts (its start position is 60
    above the outer end of the line). *)
Theorem finish_line_test_at_the_start (cv : Canvas.t) (L : R) (lane : Z) :
  Track.totalLength (Track.new cv) = JS.Fin L -> L <> 0 ->
  0 < Canvas.width cv ->
  let start := Track.getTrackPosition (Track.new cv) 0 lane in
  Track.isAtFinishLine (Track.new cv) (Track.x start) (Track.y start)
                       (JS.Fin 50) = true
  <-> (4 <= lane <= 8)%Z.
Proof.
  intros E HL Hw start. subst start.
  rewrite (position_start_of_lane (Track.new cv) L lane E HL).
  unfold Track.isAtFinishLine.
  cbn [Track.x Track.y]. rewrite sin_PI2.
  unfold laneRadiusY.
  cbn [Track.new Track.setupTrack Track.centerX Track.centerY
       Track.outerRadiusX Track.outerRadiusY Track.innerRadiusY
       Track.laneSpacing Track.trackWidth Canvas.width Canvas.height].
  unfold JS.gtb. cbn [JS.sub JS.neg JS.add JS.abs JS.ltb].
  set (cy := Canvas.height cv / 2). set (oy := Canvas.height cv * 0.35).
  set (cx := Canvas.width cv / 2). set (ox := Canvas.width cv * 0.4).
  assert (Hox : 0 < ox) by (unfold ox; lra).
  replace (cy + (oy - 120 + IZR lane * (120 / 6)) + - (cy + oy * 1))
    with (20 * IZR lane - 120) by field.
  destruct (Rlt_dec (cx - ox) cx) as [_|H]; [|exfalso; lra].
  destruct (Rlt_dec cx (cx + ox)) as [_|H]; [|exfalso; lra].
  rewrite !andb_true_r.
  destruct (Rlt_dec (Rabs (20 * IZR lane - 120)) 50) as [Ha|Ha].
  - split; [intros _|reflexivity].
    apply Rabs_def2 in Ha. destruct Ha as [H1 H2].
    assert (IZR 3 < IZR lane) by lra. assert (IZR lane < IZR 9) by lra.
    apply lt_IZR in H, H0. lia.
  - split; [discriminate|]. intros [H1 H2]. exfalso. apply Ha.
    apply IZR_le in H1, H2. apply Rabs_def1; lra.
Qed.

Lemma finish_line_test_at_the_start_witness :
  let cv := Canvas.make 700 800 in
  let start := Track.getTrackPosition (Track.new cv) 0 3 in
  (Track.totalLength (Track.new cv) = JS.Fin (440 * PI) /\ 440 * PI <> 0 /\
   0 < Canvas.width cv) /\
  Track.isAtFinishLine (Track.new cv) (Track.x start) (Track.y start)
                       (JS.Fin 50) = false.
Proof.
  intros cv start.
  assert (H2 : 440 * PI <> 0) by (pose proof PI_RGT_0; lra).
  assert (H3 : 0 < Canvas.width cv) by (simpl; lra).
  split; [exact (conj new_track_700_800 (conj H2 H3))|].
  destruct (Track.isAtFinishLine (Track.new cv) (Track.x start)
              (Track.y start) (JS.Fin 50)) eqn:Ev; [|reflexivity].
  apply (finish_line_test_at_the_start cv (440 * PI) 3 new_track_700_800 H2 H3)
    in Ev.
  lia.
Defined.

End TrackFurther.

Section PerspectiveFurther.

Import TrackPerspective.

Lemma perspective_start (t : TrackPerspective.t) (L : R) (lane : Z) :
  totalLength t = JS.Fin L -> L <> 0 ->
  Track.y (getTrackPosition t 0 lane)
  = JS.Fin (centerY t + perspectiveRadiusY t lane).
Proof.
  intros E HL. unfold getTrackPosition. rewrite E. cbn [JS.rem JS.div].
  destruct (Req_dec_T L 0) as [H|_]; [contradiction|].
  cbn [JS.div]. destruct (Req_dec_T L 0) as [H|_]; [contradiction|].
  replace (0 / L) with 0 by (field; exact HL). rewrite trunc_0.
  replace ((0 - L * 0) / L) with 0 by (field; exact HL).
  cbn [JS.mul JS.add]. replace (0 * 2 * PI + PI / 2) with (PI / 2) by ring.
  unfold JS.gtb. cbn [JS.ltb].
  destruct (Rlt_dec (PI / 2) (PI / 2)) as [H|_]; [exfalso; lra|].
  cbn [andb JS.sin JS.mul JS.add Track.y]. rewrite sin_PI2.
  unfold perspectiveRadiusY. f_equal. ring.
Qed.

Lemma flattened_height (s c : R) :
  s * s + c * c = 1 -> (0.85 + s * (1 - 0.85)) * c <= 0.925.
Proof.
  intros H.
  assert (0 <= (s - c) * (s - c)) by (apply Rle_0_sqr).
  assert (0 <= (1 - c) * (1 - c)) by (apply Rle_0_sqr).
  assert (c <= 1) by nra.
  nra.
Qed.

(** X29.  In the version with the flattened oval the position jumps at
    the start line.  At distance 0 a racer is at the full vertical
    radius of its lane under the centre; at every distance in the first
    half of the lap, however short, it is at most 0.925 of that radius
    under the centre. *)
Theorem flattened_oval_jumps_at_the_start (t : TrackPerspective.t)
        (L distance : R) (lane : Z) :
  totalLength t = JS.Fin L -> 0 < L ->
  perspectiveFlattening t = 0.85 ->
  0 < perspectiveRadiusY t lane ->
  0 < distance < L / 2 ->
  Track.y (getTrackPosition t 0 lane)
  = JS.Fin (centerY t + perspectiveRadiusY t lane) /\
  exists y,
    Track.y (getTrackPosition t distance lane) = JS.Fin y /\
    y <= centerY t + 0.925 * perspectiveRadiusY t lane.
Proof.
  intros E HL Hp Hr [Hd0 Hd1].
  split; [apply (perspective_start t L lane E); lra|].
  unfold getTrackPosition. rewrite E, Hp. cbn [JS.rem JS.div].
  destruct (Req_dec_T L 0) as [H|_]; [exfalso; lra|].
  cbn [JS.div]. destruct (Req_dec_T L 0) as [H|_]; [exfalso; lra|].
  assert (Hq : 0 < distance / L < 1 / 2).
  { split.
    - apply Rmult_lt_0_compat; [lra|apply Rinv_0_lt_compat; lra].
    - apply (Rmult_lt_reg_r L); [lra|].
      unfold Rdiv. rewrite Rmult_assoc, Rinv_l by lra. lra. }
  rewrite trunc_small by lra.
  replace ((distance - L * 0) / L) with (distance / L) by (field; lra).
  set (q := distance / L) in *.
  cbn [JS.mul JS.add]. unfold JS.gtb, JS.sub. cbn [JS.ltb JS.neg JS.add].
  pose proof PI_RGT_0 as Hpi.
  assert (Hq2 : 0 < q * 2 * PI) by (apply Rmult_lt_0_compat; lra).
  assert (Hq3 : q * 2 * PI < PI) by nra.
  destruct (Rlt_dec (PI / 2) (q * 2 * PI + PI / 2)) as [_|H];
    [|exfalso; lra].
  destruct (Rlt_dec (q * 2 * PI + PI / 2) (PI * 3 / 2)) as [_|H];
    [|exfalso; lra].
  cbn [andb JS.sin JS.mul JS.add Track.y].
  fold (perspectiveRadiusY t lane).
  eexists. split; [reflexivity|].
  replace (q * 2 * PI + PI / 2 + - (PI / 2)) with (q * 2 * PI) by ring.
  rewrite (Rplus_comm (q * 2 * PI) (PI / 2)), <- cos_sin.
  pose proof (sin2_cos2 (q * 2 * PI)) as Hsc. unfold Rsqr in Hsc.
  pose proof (flattened_height _ _ Hsc) as Hf.
  set (s := sin (q * 2 * PI)) in *. set (c := cos (q * 2 * PI)) in *.
  set (ry := perspectiveRadiusY t lane) in *.
  replace (ry * (0.85 + s * (1 - 0.85)) * c)
    with (ry * ((0.85 + s * (1 - 0.85)) * c)) by ring.
  assert (ry * ((0.85 + s * (1 - 0.85)) * c) <= ry * 0.925)
    by (apply Rmult_le_compat_l; lra).
  lra.
Qed.

Lemma flattened_oval_jumps_at_the_start_witness :
  let t := TrackPerspective.make
             (Canvas.make 1000 1000) 500 500 450 300 140 310 160 0.85
             (JS.Fin 1000) 6 (140 / 6) in
  (totalLength t = JS.Fin 1000 /\ 0 < 1000 /\
   perspectiveFlattening t = 0.85 /\ 0 < perspectiveRadiusY t 3 /\
   0 < 1 < 1000 / 2) /\
  exists y,
    Track.y (getTrackPosition t 1 3) = JS.Fin y /\
    y <= centerY t + 0.925 * perspectiveRadiusY t 3.
Proof.
  intros t.
  assert (H1 : totalLength t = JS.Fin 1000) by reflexivity.
  assert (H2 : 0 < 1000) by lra.
  assert (H3 : perspectiveFlattening t = 0.85) by reflexivity.
  assert (H4 : 0 < perspectiveRadiusY t 3)
    by (unfold perspectiveRadiusY; simpl; lra).
  assert (H5 : 0 < 1 < 1000 / 2) by lra.
  split; [exact (conj H1 (conj H2 (conj H3 (conj H4 H5))))|].
  exact (proj2 (flattened_oval_jumps_at_the_start t 1000 1 3 H1 H2 H3 H4 H5)).
Defined.

End PerspectiveFurther.

Section Camera.

Import TrackCamera.

Lemma camera_step (track : Track.t) (target : PlayerHorse.t) (cam : t)
      (tx ty sx sy : R) :
  PlayerHorse.x target = JS.Fin tx -> PlayerHorse.y target = JS.Fin ty ->
  cam = make (JS.Fin sx) (JS.Fin sy) ->
  let dx := tx - Canvas.width (Track.canvas track) / 2 in
  let dy := ty - Canvas.height (Track.canvas track) / 2 in
  updateScrolling track target cam
  = make (JS.Fin (dx - 0.9 * (dx - sx))) (JS.Fin (dy - 0.9 * (dy - sy))).
Proof.
  intros Ex Ey ->. unfold updateScrolling. rewrite Ex, Ey.
  cbn [scrollX scrollY JS.sub JS.neg JS.add JS.mul].
  f_equal; apply f_equal; lra.
Qed.

(** X30.  The camera closes in on the racer that it follows by a tenth
    of the remaining offset per tick and never passes it: with the
    racer standing at finite coordinates, after [n] ticks the scroll
    offset is the one that centres the racer less 0.9 to the power [n]
    times the offset that was missing at first; with no racer to
    follow the camera does not move. *)
Theorem camera_closes_in_on_its_target (n : nat) (track : Track.t)
        (target : PlayerHorse.t) (tx ty sx sy : R) :
  PlayerHorse.x target = JS.Fin tx -> PlayerHorse.y target = JS.Fin ty ->
  let dx := tx - Canvas.width (Track.canvas track) / 2 in
  let dy := ty - Canvas.height (Track.canvas track) / 2 in
  Nat.iter n (update track (Some target) 0.1) (make (JS.Fin sx) (JS.Fin sy))
  = make (JS.Fin (dx - 0.9 ^ n * (dx - sx)))
         (JS.Fin (dy - 0.9 ^ n * (dy - sy)))
  /\ forall deltaTime cam, update track None deltaTime cam = cam.
Proof.
  intros Ex Ey dx dy. split; [|reflexivity].
  induction n as [|n IH].
  - unfold Nat.iter. cbn [nat_rect pow]. f_equal; apply f_equal; ring.
  - unfold Nat.iter in *. cbn [nat_rect]. rewrite IH. cbn [update].
    rewrite (camera_step track target _ tx ty _ _ Ex Ey eq_refl).
    fold dx dy. cbn [pow]. f_equal; apply f_equal; ring.
Qed.

Lemma camera_closes_in_on_its_target_witness :
  let target := PlayerHorse.new scenarioTrack 3 in
  (PlayerHorse.x target = JS.Fin 500 /\
   PlayerHorse.y target = JS.Fin (400 + laneRadiusY scenarioTrack 3)) /\
  Nat.iter 2 (update scenarioTrack (Some target) 0.1) TrackCamera.new
  = make (JS.Fin (500 - 1000 / 2 - 0.9 ^ 2 * (500 - 1000 / 2 - 0)))
         (JS.Fin (400 + laneRadiusY scenarioTrack 3 - 800 / 2
                  - 0.9 ^ 2 * (400 + laneRadiusY scenarioTrack 3
                               - 800 / 2 - 0))).
Proof.
  intros target.
  assert (Hp : Track.getTrackPosition scenarioTrack 0 3
               = Track.mkPosition
                   (JS.Fin 500)
                   (JS.Fin (400 + laneRadiusY scenarioTrack 3))
                   (JS.Fin (PI / 2))).
  { apply (position_start_of_lane scenarioTrack 1000 3 eq_refl). lra. }
  assert (H1 : PlayerHorse.x target = JS.Fin 500).
  { change (PlayerHorse.x target)
      with (Track.x (Track.getTrackPosition scenarioTrack 0 3)).
    rewrite Hp. reflexivity. }
  assert (H2 : PlayerHorse.y target
               = JS.Fin (400 + laneRadiusY scenarioTrack 3)).
  { change (PlayerHorse.y target)
      with (Track.y (Track.getTrackPosition scenarioTrack 0 3)).
    rewrite Hp. reflexivity. }
  split; [exact (conj H1 H2)|].
  exact (proj1 (camera_closes_in_on_its_target
                  2 scenarioTrack target 500
                  (400 + laneRadiusY scenarioTrack 3) 0 0 H1 H2)).
Defined.

End Camera.
